(** * Tartan's GVariant format-string checker

    A shallow embedding of [clang-plugin/gvariant-checker.cpp]: the type
    comparator, the architecture-dependence detector, the variadic-argument
    consumer, the four recursive-descent parsers, the reverse type inference
    and the per-call entry point, followed by the properties proved of them.

    The checker runs inside Clang and asks Clang's [ASTContext] about types.
    Module [Clang] models the fragment of that interface the checker calls;
    module [TypeManager] models the plugin's typedef lookup. *)

From Stdlib Require Import ZArith List String Ascii Bool Lia.
Import ListNotations.

Local Open Scope string_scope.
Local Open Scope Z_scope.

(* ================================================================== *)
(** * Clang's types, as far as the checker looks at them *)
(* ================================================================== *)

Module Clang.

(** [BuiltinType::Kind], restricted to the C arithmetic kinds and [void].
    Plain [char] is [Char_S] or [Char_U] depending on the target. *)
Inductive BuiltinKind : Set :=
  | Void | Bool | Char_U | UChar | UShort | UInt | ULong | ULongLong
  | Char_S | SChar | Short | Int | Long | LongLong
  | Float | Double | LongDouble.

Definition BuiltinKind_eqb (a b : BuiltinKind) : bool :=
  match a, b with
  | Void, Void | Bool, Bool | Char_U, Char_U | UChar, UChar
  | UShort, UShort | UInt, UInt | ULong, ULong | ULongLong, ULongLong
  | Char_S, Char_S | SChar, SChar | Short, Short | Int, Int
  | Long, Long | LongLong, LongLong
  | Float, Float | Double, Double | LongDouble, LongDouble => true
  | _, _ => false
  end.

(** [Qualifiers]: the three C qualifiers. *)
Record Qualifiers : Set := mkQuals {
  q_const : bool;
  q_volatile : bool;
  q_restrict : bool
}.

Definition noQuals : Qualifiers := mkQuals false false false.
Definition constQual : Qualifiers := mkQuals true false false.

Definition Qualifiers_eqb (a b : Qualifiers) : bool :=
  Bool.eqb (q_const a) (q_const b) &&
  Bool.eqb (q_volatile a) (q_volatile b) &&
  Bool.eqb (q_restrict a) (q_restrict b).

Definition Qualifiers_empty (q : Qualifiers) : bool :=
  negb (q_const q || q_volatile q || q_restrict q).

Definition Qualifiers_add (a b : Qualifiers) : Qualifiers :=
  mkQuals (q_const a || q_const b) (q_volatile a || q_volatile b)
          (q_restrict a || q_restrict b).

(** A [QualType] is a type node together with its local qualifiers.  The
    node is a builtin, a pointer to a [QualType], a record (struct) named by
    its tag, or a typedef: the one kind of sugar the checker inspects, which
    carries its name and the type it abbreviates. *)
Inductive QualType : Set :=
  | BuiltinType (q : Qualifiers) (k : BuiltinKind)
  | PointerType (q : Qualifiers) (pointee : QualType)
  | TypedefType (q : Qualifiers) (name : string) (underlying : QualType)
  | RecordType (q : Qualifiers) (tag : string).

Fixpoint QualType_eqb (a b : QualType) : bool :=
  match a, b with
  | BuiltinType qa ka, BuiltinType qb kb =>
      Qualifiers_eqb qa qb && BuiltinKind_eqb ka kb
  | PointerType qa pa, PointerType qb pb =>
      Qualifiers_eqb qa qb && QualType_eqb pa pb
  | TypedefType qa na ua, TypedefType qb nb ub =>
      Qualifiers_eqb qa qb && String.eqb na nb && QualType_eqb ua ub
  | RecordType qa ta, RecordType qb tb =>
      Qualifiers_eqb qa qb && String.eqb ta tb
  | _, _ => false
  end.

Definition getLocalQualifiers (t : QualType) : Qualifiers :=
  match t with
  | BuiltinType q _ | PointerType q _ | TypedefType q _ _ | RecordType q _ => q
  end.

(** [QualType (getTypePtr (), quals)]: the same node under other local
    qualifiers. *)
Definition withLocalQualifiers (q : Qualifiers) (t : QualType) : QualType :=
  match t with
  | BuiltinType _ k => BuiltinType q k
  | PointerType _ p => PointerType q p
  | TypedefType _ n u => TypedefType q n u
  | RecordType _ tag => RecordType q tag
  end.

Definition addQualifiers (q : Qualifiers) (t : QualType) : QualType :=
  withLocalQualifiers (Qualifiers_add q (getLocalQualifiers t)) t.

Definition hasLocalQualifiers (t : QualType) : bool :=
  negb (Qualifiers_empty (getLocalQualifiers t)).

(** [ASTContext::getCanonicalType]: all sugar removed, at every depth; the
    qualifiers met on the way are kept. *)
Fixpoint getCanonicalType (t : QualType) : QualType :=
  match t with
  | BuiltinType q k => BuiltinType q k
  | PointerType q p => PointerType q (getCanonicalType p)
  | TypedefType q _ u => addQualifiers q (getCanonicalType u)
  | RecordType q tag => RecordType q tag
  end.

(** [ASTContext::hasSameType]: equal canonical types, qualifiers included. *)
Definition hasSameType (a b : QualType) : bool :=
  QualType_eqb (getCanonicalType a) (getCanonicalType b).

(** [dyn_cast<PointerType> (type)]: looks at the node itself, not through
    sugar, and ignores the local qualifiers.  Yields the pointee. *)
Definition dyn_cast_PointerType (t : QualType) : option QualType :=
  match t with
  | PointerType _ p => Some p
  | _ => None
  end.

(** [dyn_cast<TypedefType> (type)], yielding the declaration's name. *)
Definition dyn_cast_TypedefType (t : QualType) : option string :=
  match t with
  | TypedefType _ n _ => Some n
  | _ => None
  end.

(** [dyn_cast<BuiltinType> (type)]. *)
Definition dyn_cast_BuiltinType (t : QualType) : option BuiltinKind :=
  match t with
  | BuiltinType _ k => Some k
  | _ => None
  end.

(** The builtin kind of the canonical type, if it is a builtin: what the
    [Type::is...Type ()] predicates below look at. *)
Definition canonicalKind (t : QualType) : option BuiltinKind :=
  dyn_cast_BuiltinType (getCanonicalType t).

Definition isPointerType (t : QualType) : bool :=
  match getCanonicalType t with
  | PointerType _ _ => true
  | _ => false
  end.

(** [Type::getPointeeType ()] ([getAs<PointerType>]): looks through sugar to
    the pointer node and returns its pointee as written. *)
Fixpoint getPointeeType (t : QualType) : option QualType :=
  match t with
  | PointerType _ p => Some p
  | TypedefType _ _ u => getPointeeType u
  | _ => None
  end.

Definition isUnsignedKind (k : BuiltinKind) : bool :=
  match k with
  | Bool | Char_U | UChar | UShort | UInt | ULong | ULongLong => true
  | _ => false
  end.

Definition isSignedKind (k : BuiltinKind) : bool :=
  match k with
  | Char_S | SChar | Short | Int | Long | LongLong => true
  | _ => false
  end.

Definition isUnsignedIntegerType (t : QualType) : bool :=
  match canonicalKind t with Some k => isUnsignedKind k | None => false end.

Definition isSignedIntegerType (t : QualType) : bool :=
  match canonicalKind t with Some k => isSignedKind k | None => false end.

Definition hasSignedIntegerRepresentation (t : QualType) : bool :=
  isSignedIntegerType t.

Definition isCharType (t : QualType) : bool :=
  match canonicalKind t with
  | Some (Char_U | UChar | Char_S | SChar) => true
  | _ => false
  end.

(** [QualType::isConstQualified]: const locally or in the canonical type. *)
Definition isConstQualified (t : QualType) : bool :=
  q_const (getLocalQualifiers (getCanonicalType t)).

(** [ASTContext::getCorrespondingUnsignedType]: the unsigned builtin of the
    same rank; the result is a plain builtin, whatever sugar the argument
    had.  Only called on types with a signed integer representation. *)
Definition getCorrespondingUnsignedType (t : QualType) : QualType :=
  match canonicalKind t with
  | Some (Char_S | SChar) => BuiltinType noQuals UChar
  | Some Short => BuiltinType noQuals UShort
  | Some Int => BuiltinType noQuals UInt
  | Some Long => BuiltinType noQuals ULong
  | Some LongLong => BuiltinType noQuals ULongLong
  | _ => t
  end.

(** [Type::isPromotableIntegerType]: the integer kinds of rank below [int]. *)
Definition isPromotableIntegerType (t : QualType) : bool :=
  match canonicalKind t with
  | Some (Bool | Char_U | UChar | UShort | Char_S | SChar | Short) => true
  | _ => false
  end.

(** [ASTContext::getPromotedIntegerType]: with a 32-bit [int] every
    promotable kind, signed or not, fits [int].  Only called on promotable
    types. *)
Definition getPromotedIntegerType (t : QualType) : QualType :=
  if isPromotableIntegerType t then BuiltinType noQuals Int else t.

Definition getPointerType (t : QualType) : QualType := PointerType noQuals t.

(** [ASTContext::getConstType]. *)
Definition getConstType (t : QualType) : QualType := addQualifiers constQual t.

(** The innermost node of a chain of sugar that carries local qualifiers. *)
Fixpoint lastTypeWithQuals (t : QualType) : option QualType :=
  match t with
  | TypedefType q _ u =>
      match lastTypeWithQuals u with
      | Some r => Some r
      | None => if Qualifiers_empty q then None else Some t
      end
  | _ => if hasLocalQualifiers t then Some t else None
  end.

(** [QualType::getSplitUnqualifiedTypeImpl]: desugar step by step and keep
    the last node that had qualifiers, or the starting node if none had. *)
Definition getSplitUnqualifiedTypeImpl (t : QualType) : QualType :=
  match t with
  | TypedefType _ _ u =>
      match lastTypeWithQuals u with Some r => r | None => t end
  | _ => t
  end.

(** [QualType::getUnqualifiedType]: when the node's canonical type has no
    qualifiers of its own, drop the local ones; otherwise remove as little
    sugar as is needed to be rid of them. *)
Definition getUnqualifiedType (t : QualType) : QualType :=
  if hasLocalQualifiers (getCanonicalType (withLocalQualifiers noQuals t))
  then withLocalQualifiers noQuals (getSplitUnqualifiedTypeImpl t)
  else withLocalQualifiers noQuals t.

(** The data model of the target: it fixes the width of [long] and of
    pointers, and with it which builtin GLib's 64-bit typedefs abbreviate. *)
Inductive DataModel : Set := ILP32 | LP64 | LLP64.

(** [ASTContext::getTypeSize] in bits, on the builtin kinds and pointers. *)
Definition kindSize (dm : DataModel) (k : BuiltinKind) : Z :=
  match k with
  | Void => 0
  | Bool | Char_U | UChar | Char_S | SChar => 8
  | UShort | Short => 16
  | UInt | Int | Float => 32
  | ULong | Long => match dm with LP64 => 64 | _ => 32 end
  | ULongLong | LongLong | Double => 64
  | LongDouble => 128
  end.

Definition getTypeSize (dm : DataModel) (t : QualType) : Z :=
  match getCanonicalType t with
  | BuiltinType _ k => kindSize dm k
  | PointerType _ _ => match dm with ILP32 => 32 | _ => 64 end
  | _ => 0
  end.

(** The context's own builtin types. *)
Definition IntTy : QualType := BuiltinType noQuals Int.
Definition UnsignedCharTy : QualType := BuiltinType noQuals UChar.
Definition CharTy : QualType := BuiltinType noQuals Char_S.
Definition DoubleTy : QualType := BuiltinType noQuals Double.
Definition LongTy : QualType := BuiltinType noQuals Long.
Definition UnsignedLongTy : QualType := BuiltinType noQuals ULong.
Definition LongDoubleTy : QualType := BuiltinType noQuals LongDouble.

(** An argument expression of the call, by what the checker asks of it. *)
Record Expr : Set := mkExpr {
  (** [getType ()]: the static type. *)
  getType : QualType;
  (** [isNullPointerConstant (context, NPC_ValueDependentIsNull)]. *)
  isNullPointerConstant : bool;
  (** [isIntegerConstantExpr (value, context)]: the value when it is one. *)
  isIntegerConstantExpr : option Z;
  (** [dyn_cast<StringLiteral> (IgnoreParenImpCasts ())]: the literal's
      bytes when the expression is a string literal. *)
  asStringLiteral : option string
}.

End Clang.
Import Clang.

(* ================================================================== *)
(** * The plugin's type manager *)
(* ================================================================== *)

Module TypeManager.

(** GLib's typedefs, as the translation unit under analysis declares them
    ([glib/gtypes.h] and the target's [glibconfig.h]). *)
Definition typedef_decl (dm : DataModel) (name : string) : option QualType :=
  let builtin k := Some (BuiltinType noQuals k) in
  if String.eqb name "gint16" then builtin Short
  else if String.eqb name "guint16" then builtin UShort
  else if String.eqb name "gint32" then builtin Int
  else if String.eqb name "guint32" then builtin UInt
  else if String.eqb name "gint64"
    then builtin (match dm with LP64 => Long | _ => LongLong end)
  else if String.eqb name "guint64"
    then builtin (match dm with LP64 => ULong | _ => ULongLong end)
  else if String.eqb name "gint" then builtin Int
  else if String.eqb name "gboolean"
    then Some (TypedefType noQuals "gint" (BuiltinType noQuals Int))
  else if String.eqb name "gchar" then builtin Char_S
  else if String.eqb name "glong" then builtin Long
  else if String.eqb name "gulong" then builtin ULong
  else if String.eqb name "GVariant" then Some (RecordType noQuals "_GVariant")
  else if String.eqb name "GVariantIter" then Some (RecordType noQuals "_GVariantIter")
  else if String.eqb name "GVariantBuilder"
    then Some (RecordType noQuals "_GVariantBuilder")
  else if String.eqb name "va_list" then Some (RecordType noQuals "__va_list_tag")
  else None.

(** Modelled from the spec: [TypeManager::find_type_by_name] is declared in
    [type-manager.h], which is not among the sources.  Per the spec's type
    lookup service, [typeByName (name)] resolves a library type name (the
    16/32/64-bit integer aliases, the variant, iterator and builder
    aggregates, the va_list marker) to its type handle: here the typedef
    type of that name.  A name that is not declared has no handle; the
    checker only asks for names GLib declares, and the model answers [void]
    for any other. *)
Definition find_type_by_name (dm : DataModel) (name : string) : QualType :=
  match typedef_decl dm name with
  | Some u => TypedefType noQuals name u
  | None => BuiltinType noQuals Void
  end.

(** Modelled from the spec: [TypeManager::find_pointer_type_by_name], the
    spec's [pointerTypeByName (name)]: a pointer to the type of that name. *)
Definition find_pointer_type_by_name (dm : DataModel) (name : string)
  : QualType :=
  getPointerType (find_type_by_name dm name).

End TypeManager.
Import TypeManager.

(* ================================================================== *)
(** * The checker *)
(* ================================================================== *)

(** ** Function table *)

Record VariantFuncInfo : Set := mkFuncInfo {
  func_name : string;
  format_param_index : nat;
  first_vararg_param_index : nat;
  uses_va_list : bool;
  args_in : bool
}.

Definition gvariant_format_funcs : list VariantFuncInfo := [
  mkFuncInfo "g_variant_new" 0 1 false true;
  mkFuncInfo "g_variant_new_va" 0 2 true true;
  mkFuncInfo "g_variant_get" 1 2 false false;
  mkFuncInfo "g_variant_get_va" 1 3 true false;
  mkFuncInfo "g_variant_get_child" 2 3 false false;
  mkFuncInfo "g_variant_lookup" 2 3 false false;
  mkFuncInfo "g_variant_iter_next" 1 2 false false;
  mkFuncInfo "g_variant_iter_loop" 1 2 false false;
  mkFuncInfo "g_variant_builder_add" 1 2 false true
].

Definition _func_uses_gvariant_format (name : string)
  : option VariantFuncInfo :=
  match name with
  | String "g" _ =>
      find (fun info => String.eqb name (func_name info)) gvariant_format_funcs
  | _ => None
  end.

(** ** Flags *)

(** [VariantCheckFlags], carried in an [unsigned int]. *)
Definition CHECK_FLAG_NONE : Z := 0.
Definition CHECK_FLAG_FORCE_GVARIANT : Z := Z.shiftl 1 0.
Definition CHECK_FLAG_FORCE_VALIST : Z := Z.shiftl 1 2.
Definition CHECK_FLAG_REQUIRE_CONST : Z := Z.shiftl 1 4.
Definition CHECK_FLAG_DIRECTION_OUT : Z := Z.shiftl 1 5.
Definition CHECK_FLAG_ALLOW_MAYBE : Z := Z.shiftl 1 6.
Definition CHECK_FLAG_CONSUME_ARGS : Z := Z.shiftl 1 7.

(** [flags & FLAG] used as a condition. *)
Definition has_flag (flags flag : Z) : bool := negb (Z.land flags flag =? 0).

(** ** Type comparison *)

(** [_compare_types].  The recursion is on the expected type: the source
    recurses only after [dyn_cast<PointerType> (expected_type)] succeeded,
    and then on that pointer's pointee. *)
Fixpoint _compare_types (actual_type expected_type : QualType) (flags : Z)
  {struct expected_type} : bool :=
  (* Fast path: Simple comparison. *)
  if hasSameType actual_type expected_type then true
  else
    (* Slow path: Strip pointers off and remove qualifiers for inbound
       actual types. *)
    match dyn_cast_PointerType actual_type, expected_type with
    | Some actual_pointee_type, PointerType _ expected_pointee_type =>
        let actual_pointee_type :=
          if negb (has_flag flags CHECK_FLAG_DIRECTION_OUT)
          then getUnqualifiedType actual_pointee_type
          else actual_pointee_type in
        _compare_types actual_pointee_type expected_pointee_type flags
    | _, _ => false
    end.

(** ** Architecture-dependent types *)

Fixpoint _type_is_arch_dependent (type : QualType) : bool :=
  match type with
  | PointerType _ pointee =>
      (* Strip off any pointers. *)
      _type_is_arch_dependent pointee
  | TypedefType _ typedef_name _ =>
      String.eqb typedef_name "glong" || String.eqb typedef_name "gulong"
  | _ =>
      hasSameType type LongTy || hasSameType type UnsignedLongTy ||
      hasSameType type LongDoubleTy
  end.

(** ** Diagnostics and the state of a check *)

(** Which of the two grammars worded a structural error. *)
Inductive Grammar : Set := TypeString | FormatString.

(** One constructor per message of the checker (the rendering of the text and
    of the source location is Clang's). *)
Inductive Diagnostic : Set :=
  (* "Expected ... of type %0 but there wasn't one." *)
  | MissingArgument (expected : QualType)
  (* "Expected ... of type %0 but saw NULL instead." *)
  | NullNotAllowed (expected : QualType)
  (* "... These types are not compatible on every architecture." *)
  | ArchDependentMismatch (expected actual : QualType)
  (* "Expected ... of type %0 but saw one of type %1." *)
  | TypeMismatch (expected actual : QualType)
  (* "Expected a GVariant basic type string but saw '%0'." *)
  | InvalidBasicType (c : ascii)
  (* "convenience operator '^' was not followed by a recognized ..." *)
  | InvalidConvenience
  (* "tuple did not end with ')'." *)
  | UnterminatedTuple (g : Grammar)
  (* "dict did not contain exactly two elements." *)
  | DictNotTwoElements (g : Grammar)
  (* "dict did not end with '}'." *)
  | DictUnterminated (g : Grammar)
  (* "dict contains more than two elements." *)
  | DictTooManyElements (g : Grammar)
  (* "Unexpected GVariant format strings '%0' with unpaired arguments..." *)
  | UnconsumedFormatString (rest whole : string)
  (* "Unexpected GVariant variadic argument of type %0..." with the
     suggested format string when one is known. *)
  | UnconsumedArgument (actual : QualType) (suggestion : option string)
  (* Warning: "Non-literal GVariant format string in call to %0()." *)
  | NonLiteralFormatString (callee : string).

(** The spec's [InvalidFormatChar] and [MalformedDictEntry] classes. *)
Definition is_InvalidFormatChar (d : Diagnostic) : bool :=
  match d with
  | InvalidBasicType _ | InvalidConvenience => true
  | _ => false
  end.

Definition is_MalformedDictEntry (d : Diagnostic) : bool :=
  match d with
  | DictNotTwoElements _ | DictUnterminated _ | DictTooManyElements _ => true
  | _ => false
  end.

(** The five functions that pass flags to one another. *)
Inductive Fn : Set :=
  | Fn_consume_variadic_argument
  | Fn_check_basic_type_string
  | Fn_check_type_string
  | Fn_check_basic_format_string
  | Fn_check_format_string.

(** A call from one of them to another: the flags the caller was entered
    with, and the flags it passes. *)
Record Call : Set := mkCall {
  caller : Fn;
  caller_flags : Z;
  callee : Fn;
  callee_flags : Z
}.

(** What a check threads through its calls: the format cursor
    ([*format_str], the rest of the NUL-terminated string), the argument
    cursor ([*args_begin]; [*args_end] is the end of the list), and the
    diagnostics emitted so far, oldest first.  [calls] is a ghost log of the
    calls made, kept for the flag invariant; nothing reads it. *)
Record CheckState : Set := mkState {
  format_str : string;
  args_begin : list Expr;
  diags : list Diagnostic;
  calls : list Call
}.

Definition emit_error (d : Diagnostic) (st : CheckState) : CheckState :=
  mkState (format_str st) (args_begin st) (diags st ++ [d]) (calls st).

Definition log_call (c : Call) (st : CheckState) : CheckState :=
  mkState (format_str st) (args_begin st) (diags st) (calls st ++ [c]).

Definition set_format_str (s : string) (st : CheckState) : CheckState :=
  mkState s (args_begin st) (diags st) (calls st).

Definition set_args_begin (a : list Expr) (st : CheckState) : CheckState :=
  mkState (format_str st) a (diags st) (calls st).

(** [**format_str]: the character under the cursor, NUL at the end. *)
Definition peek (s : string) : ascii :=
  match s with
  | EmptyString => zero
  | String c _ => c
  end.

(** [*format_str + n]. *)
Fixpoint advance (n : nat) (s : string) : string :=
  match n, s with
  | S n', String _ rest => advance n' rest
  | _, _ => s
  end.

Definition cur (st : CheckState) : ascii := peek (format_str st).

Definition skip (n : nat) (st : CheckState) : CheckState :=
  set_format_str (advance n (format_str st)) st.

Section Checker.

(** The target the translation unit is compiled for. *)
Variable dm : DataModel.

(** ** Consuming one variadic argument *)

(** The expected type after the flags had their say (the source's lines
    "Force the expected types", "Handle const-ness of out arguments" and
    "Handle in/out arguments").  With [CHECK_FLAG_REQUIRE_CONST] the source
    dereferences [dyn_cast<PointerType> (expected_type)] unchecked; the cast
    succeeds on every pointer type the parsers build, which are never
    sugared, and the model leaves any other type as it is. *)
Definition flagged_expected_type (expected_type : QualType) (flags : Z)
  : QualType :=
  let expected_type :=
    if has_flag flags CHECK_FLAG_FORCE_GVARIANT
    then find_pointer_type_by_name dm "GVariant"
    else if has_flag flags CHECK_FLAG_FORCE_VALIST
    then find_pointer_type_by_name dm "va_list"
    else expected_type in
  let expected_type :=
    if has_flag flags CHECK_FLAG_DIRECTION_OUT &&
       has_flag flags CHECK_FLAG_REQUIRE_CONST &&
       isPointerType expected_type
    then match dyn_cast_PointerType expected_type with
         | Some expected_pointee_type =>
             getPointerType (getConstType expected_pointee_type)
         | None => expected_type
         end
    else expected_type in
  if has_flag flags CHECK_FLAG_DIRECTION_OUT &&
     negb (has_flag flags CHECK_FLAG_FORCE_VALIST)
  then getPointerType expected_type
  else expected_type.

(** "Check for int -> uint promotions": whether the argument is a
    non-negative integer constant of signed type facing an unsigned expected
    type. *)
Definition is_promotable_literal (expected_type : QualType) (arg : Expr)
  : bool :=
  match isIntegerConstantExpr arg with
  | Some int_constant_value =>
      (0 <=? int_constant_value) &&
      isUnsignedIntegerType expected_type &&
      hasSignedIntegerRepresentation (getType arg)
  | None => false
  end.

(** The argument's type as the consumer goes on to check it: the static
    type, or its unsigned counterpart for such a literal. *)
Definition checked_actual_type (expected_type : QualType) (arg : Expr)
  : QualType :=
  if is_promotable_literal expected_type arg
  then getCorrespondingUnsignedType (getType arg)
  else getType arg.

Definition _consume_variadic_argument (expected_type : QualType) (flags : Z)
  (st : CheckState) : bool * CheckState :=
  (* If the GVariant method doesn't use varargs, don't actually consume
     the argument. *)
  if negb (has_flag flags CHECK_FLAG_CONSUME_ARGS) then (true, st)
  else
    let expected_type := flagged_expected_type expected_type flags in
    match args_begin st with
    | [] => (false, emit_error (MissingArgument expected_type) st)
    | arg :: rest =>
        (* Check its nullability. *)
        let is_null_constant := isNullPointerConstant arg in
        (* Check for int -> uint promotions. *)
        let actual_type := checked_actual_type expected_type arg in
        if is_null_constant &&
           negb (has_flag flags CHECK_FLAG_ALLOW_MAYBE) &&
           isPointerType expected_type
        then (false, emit_error (NullNotAllowed expected_type) st)
        else
          let consumed := (true, set_args_begin rest st) in
          if negb is_null_constant then
            (* Normal case. *)
            let type_error :=
              negb (_compare_types actual_type expected_type flags) in
            let arch_error := _type_is_arch_dependent actual_type in
            if arch_error then
              (false,
               emit_error (ArchDependentMismatch expected_type actual_type) st)
            else if type_error then
              (false, emit_error (TypeMismatch expected_type actual_type) st)
            else consumed
          else consumed
    end.

(** A call site: the call is logged, with the flags the caller was entered
    with and the flags it passes, and the callee runs on those flags. *)
Definition calling (from : Fn) (flags : Z) (to : Fn) (flags' : Z)
  (st : CheckState) : CheckState :=
  log_call (mkCall from flags to flags') st.

Definition call {A : Type} (from : Fn) (flags : Z) (to : Fn) (flags' : Z)
  (callee : Z -> CheckState -> A) (st : CheckState) : A :=
  callee flags' (calling from flags to flags' st).

(** ** Basic type strings *)

(** The [switch] of [_check_basic_type_string]: the type a basic type
    character stands for, [None] in the [default] case. *)
Definition basic_expected_type (c : ascii) : option QualType :=
  match c with
  (* Numeric Types *)
  | "b"%char => Some IntTy
  | "y"%char => Some UnsignedCharTy
  | "n"%char => Some (find_type_by_name dm "gint16")
  | "q"%char => Some (find_type_by_name dm "guint16")
  | "i"%char | "h"%char => Some (find_type_by_name dm "gint32")
  | "u"%char => Some (find_type_by_name dm "guint32")
  | "x"%char => Some (find_type_by_name dm "gint64")
  | "t"%char => Some (find_type_by_name dm "guint64")
  | "d"%char => Some DoubleTy
  (* Strings *)
  | "s"%char | "o"%char | "g"%char => Some (getPointerType CharTy)
  (* Basic types *)
  | "?"%char => Some (find_pointer_type_by_name dm "GVariant")
  | _ => None
  end.

(** "Handle type promotion": the type expected at the call site. *)
Definition promoted_expected_type (c : ascii) (flags : Z)
  (expected_type : QualType) : QualType :=
  if negb (has_flag flags CHECK_FLAG_DIRECTION_OUT) &&
     (Ascii.eqb c "y" || Ascii.eqb c "n" || Ascii.eqb c "q")
  then getPromotedIntegerType expected_type
  else expected_type.

Definition _check_basic_type_string (flags : Z) (st : CheckState)
  : bool * CheckState :=
  let self := Fn_check_basic_type_string in
  match basic_expected_type (cur st) with
  | None => (false, emit_error (InvalidBasicType (cur st)) st)
  | Some expected_type =>
      let expected_type :=
        promoted_expected_type (cur st) flags expected_type in
      (* Consume the type string. *)
      let st := skip 1 st in
      call self flags Fn_consume_variadic_argument flags
        (_consume_variadic_argument expected_type) st
  end.

(** ** Type strings *)

(** A parser that may run out of fuel. *)
Definition Parser : Set := CheckState -> option (bool * CheckState).

(** [if (!m) return false; k]. *)
Notation "'let!' st ':=' m 'in' k" :=
  (match m with
   | Some (true, st) => k
   | Some (false, st) => Some (false, st)
   | None => None
   end)
  (at level 10, st name, m at level 100, k at level 200).

(** The tuple loop: while the character under the cursor is neither the
    closing bracket nor NUL, parse one member and return false if that
    fails; at most [n] rounds. *)
Fixpoint while_members (member : Parser) (n : nat) (st : CheckState)
  : option (bool * CheckState) :=
  if negb (Ascii.eqb (cur st) ")") && negb (Ascii.eqb (cur st) zero) then
    match n with
    | O => None
    | S n' => let! st := member st in while_members member n' st
    end
  else Some (true, st).

(** The cases of the [switch] in [_check_type_string]. *)
Inductive TypeCase : Set :=
  | Type_v | Type_a | Type_m | Type_tuple | Type_r | Type_dict | Type_star
  | Type_default.

Definition type_case (c : ascii) : TypeCase :=
  match c with
  | "v"%char => Type_v
  | "a"%char => Type_a
  | "m"%char => Type_m
  | "("%char => Type_tuple
  | "r"%char => Type_r
  | "{"%char => Type_dict
  | "*"%char => Type_star
  | _ => Type_default
  end.

Fixpoint check_type_string_fuel (fuel : nat) (flags : Z) (st : CheckState)
  {struct fuel} : option (bool * CheckState) :=
  match fuel with
  | O => None
  | S fuel' =>
      let self := Fn_check_type_string in
      let direct_gvariant :=
        (* Consume the type string. *)
        let st := skip 1 st in
        Some (call self flags Fn_consume_variadic_argument flags
                (_consume_variadic_argument
                   (find_pointer_type_by_name dm "GVariant")) st) in
      match type_case (cur st) with
      (* Variants *)
      | Type_v => direct_gvariant
      (* Arrays *)
      | Type_a =>
          (* Consume the 'a'. *)
          let st := skip 1 st in
          (* Update flags for the array element type. *)
          let flags' := Z.lor flags CHECK_FLAG_ALLOW_MAYBE in
          let expected_type :=
            if has_flag flags' CHECK_FLAG_DIRECTION_OUT
            then find_pointer_type_by_name dm "GVariantIter"
            else find_pointer_type_by_name dm "GVariantBuilder" in
          (* Check and consume the type string for the array element
             type. *)
          let! st :=
            call self flags self
              (Z.land flags' (Z.lnot CHECK_FLAG_CONSUME_ARGS))
              (check_type_string_fuel fuel') st in
          (* Consume the single GVariantBuilder for the array. *)
          Some (call self flags Fn_consume_variadic_argument flags'
                  (_consume_variadic_argument expected_type) st)
      (* Maybe Types *)
      | Type_m =>
          let st := skip 1 st in
          call self flags self (Z.lor flags CHECK_FLAG_ALLOW_MAYBE)
            (check_type_string_fuel fuel') st
      (* Tuples *)
      | Type_tuple =>
          let st := skip 1 st in
          let! st :=
            while_members
              (call self flags self flags (check_type_string_fuel fuel'))
              fuel' st in
          if negb (Ascii.eqb (cur st) ")")
          then Some (false, emit_error (UnterminatedTuple TypeString) st)
          else Some (true, skip 1 st)
      | Type_r => direct_gvariant
      (* Dictionaries *)
      | Type_dict =>
          let st := skip 1 st in
          if Ascii.eqb (cur st) "}"
          then Some (false, emit_error (DictNotTwoElements TypeString) st)
          else
          let! st :=
            Some (call self flags Fn_check_basic_type_string flags
                    _check_basic_type_string st) in
          if Ascii.eqb (cur st) "}"
          then Some (false, emit_error (DictNotTwoElements TypeString) st)
          else
          let! st :=
            call self flags self flags (check_type_string_fuel fuel') st in
          if Ascii.eqb (cur st) zero
          then Some (false, emit_error (DictUnterminated TypeString) st)
          else if negb (Ascii.eqb (cur st) "}")
          then Some (false, emit_error (DictTooManyElements TypeString) st)
          else Some (true, skip 1 st)
      (* GVariant* *)
      | Type_star => direct_gvariant
      | Type_default =>
          (* Fall back to checking basic types. *)
          Some (call self flags Fn_check_basic_type_string flags
                  _check_basic_type_string st)
      end
  end.

(** Each call that returns true has moved the format cursor, so a call
    nests no deeper than the string is long. *)
Definition enough_fuel (st : CheckState) : nat :=
  S (String.length (format_str st)).

Definition _check_type_string (flags : Z) (st : CheckState)
  : bool * CheckState :=
  match check_type_string_fuel (enough_fuel st) flags st with
  | Some r => r
  | None => (false, st)
  end.

(** ** Basic format strings *)

(** [CONVENIENCE_FORMAT (STR_PTR, F)]:
    [strncmp (STR_PTR, F, strlen (F)) == 0]. *)
Definition CONVENIENCE_FORMAT (str_ptr f : string) : bool :=
  String.prefix f str_ptr.

(** The table of convenience conversions: the expected type and the number
    of characters to skip. *)
Definition convenience_conversion (str : string) : option (QualType * nat) :=
  let char_array := getPointerType CharTy in
  let const_char_array := getPointerType (getConstType CharTy) in
  if CONVENIENCE_FORMAT str "as" || CONVENIENCE_FORMAT str "ao"
  then Some (getPointerType char_array, 2%nat)
  else if CONVENIENCE_FORMAT str "a&s" || CONVENIENCE_FORMAT str "a&o"
  then Some (getPointerType const_char_array, 3%nat)
  else if CONVENIENCE_FORMAT str "aay"
  then Some (getPointerType char_array, 3%nat)
  else if CONVENIENCE_FORMAT str "ay"
  then Some (char_array, 2%nat)
  else if CONVENIENCE_FORMAT str "&ay"
  then Some (const_char_array, 3%nat)
  else if CONVENIENCE_FORMAT str "a&ay"
  then Some (getPointerType const_char_array, 4%nat)
  else None.

Inductive BasicFormatCase : Set :=
  | BasicFormat_at | BasicFormat_question | BasicFormat_amp
  | BasicFormat_caret | BasicFormat_default.

Definition basic_format_case (c : ascii) : BasicFormatCase :=
  match c with
  | "@"%char => BasicFormat_at
  | "?"%char => BasicFormat_question
  | "&"%char => BasicFormat_amp
  | "^"%char => BasicFormat_caret
  | _ => BasicFormat_default
  end.

Definition _check_basic_format_string (flags : Z) (st : CheckState)
  : bool * CheckState :=
  let self := Fn_check_basic_format_string in
  match basic_format_case (cur st) with
  | BasicFormat_at =>
      let st := skip 1 st in
      call self flags Fn_check_basic_type_string
        (Z.lor flags CHECK_FLAG_FORCE_GVARIANT) _check_basic_type_string st
  | BasicFormat_question =>
      (* Direct GVariant. *)
      let st := skip 1 st in
      call self flags Fn_consume_variadic_argument flags
        (_consume_variadic_argument (find_pointer_type_by_name dm "GVariant"))
        st
  | BasicFormat_amp =>
      (* Ignore it for inbound arguments; require that outbound
         arguments are const. *)
      let st := skip 1 st in
      call self flags Fn_check_basic_type_string
        (Z.lor flags CHECK_FLAG_REQUIRE_CONST) _check_basic_type_string st
  | BasicFormat_caret =>
      (* Various different hard-coded types. *)
      let st := skip 1 st in
      match convenience_conversion (format_str st) with
      | Some (expected_type, n) =>
          let st := skip n st in
          call self flags Fn_consume_variadic_argument flags
            (_consume_variadic_argument expected_type) st
      | None => (false, emit_error InvalidConvenience st)
      end
  | BasicFormat_default =>
      (* Assume it's a type string. *)
      call self flags Fn_check_basic_type_string flags
        _check_basic_type_string st
  end.

(** ** Format strings *)

Inductive FormatCase : Set :=
  | Format_at | Format_m | Format_direct | Format_tuple | Format_dict
  | Format_amp | Format_caret | Format_default.

Definition format_case (c : ascii) : FormatCase :=
  match c with
  | "@"%char => Format_at
  | "m"%char => Format_m
  | "*"%char | "?"%char | "r"%char => Format_direct
  | "("%char => Format_tuple
  | "{"%char => Format_dict
  | "&"%char => Format_amp
  | "^"%char => Format_caret
  | _ => Format_default
  end.

Fixpoint check_format_string_fuel (fuel : nat) (flags : Z) (st : CheckState)
  {struct fuel} : option (bool * CheckState) :=
  match fuel with
  | O => None
  | S fuel' =>
      let self := Fn_check_format_string in
      match format_case (cur st) with
      | Format_at =>
          let st := skip 1 st in
          call self flags Fn_check_type_string
            (Z.lor flags CHECK_FLAG_FORCE_GVARIANT)
            (check_type_string_fuel fuel) st
      | Format_m =>
          let st := skip 1 st in
          call self flags self (Z.lor flags CHECK_FLAG_ALLOW_MAYBE)
            (check_format_string_fuel fuel') st
      | Format_direct =>
          (* Direct GVariants. *)
          let st := skip 1 st in
          Some (call self flags Fn_consume_variadic_argument flags
                  (_consume_variadic_argument
                     (find_pointer_type_by_name dm "GVariant")) st)
      | Format_tuple =>
          let st := skip 1 st in
          let! st :=
            while_members
              (call self flags self flags (check_format_string_fuel fuel'))
              fuel' st in
          if negb (Ascii.eqb (cur st) ")")
          then Some (false, emit_error (UnterminatedTuple FormatString) st)
          else Some (true, skip 1 st)
      | Format_dict =>
          let st := skip 1 st in
          if Ascii.eqb (cur st) "}"
          then Some (false, emit_error (DictNotTwoElements FormatString) st)
          else
          let! st :=
            Some (call self flags Fn_check_basic_format_string flags
                    _check_basic_format_string st) in
          if Ascii.eqb (cur st) "}"
          then Some (false, emit_error (DictNotTwoElements FormatString) st)
          else
          let! st :=
            call self flags self flags (check_format_string_fuel fuel') st in
          if Ascii.eqb (cur st) zero
          then Some (false, emit_error (DictUnterminated FormatString) st)
          else if negb (Ascii.eqb (cur st) "}")
          then Some (false, emit_error (DictTooManyElements FormatString) st)
          else Some (true, skip 1 st)
      | Format_amp =>
          (* Ignore it for inbound arguments; require that outbound
             arguments are const. *)
          let st := skip 1 st in
          call self flags Fn_check_type_string
            (Z.lor flags CHECK_FLAG_REQUIRE_CONST)
            (check_type_string_fuel fuel) st
      | Format_caret =>
          (* Handled by the basic format string parser. *)
          Some (call self flags Fn_check_basic_format_string flags
                  _check_basic_format_string st)
      | Format_default =>
          (* Assume it's a type string. *)
          call self flags Fn_check_type_string flags
            (check_type_string_fuel fuel) st
      end
  end.

Definition _check_format_string (flags : Z) (st : CheckState)
  : bool * CheckState :=
  match check_format_string_fuel (enough_fuel st) flags st with
  | Some r => r
  | None => (false, st)
  end.

(** ** Reverse type inference *)

Definition is_kind (bt : option BuiltinKind) (k : BuiltinKind) : bool :=
  match bt with
  | Some k' => BuiltinKind_eqb k' k
  | None => false
  end.

Definition _gvariant_format_string_for_type (type : QualType)
  : option string :=
  let bt := dyn_cast_BuiltinType type in
  (* Boolean. *)
  if is_kind bt Bool ||
     QualType_eqb type (find_pointer_type_by_name dm "gboolean")
  then Some "b"
  else if is_kind bt UChar then Some "y"
  else if is_kind bt LongDouble then Some "d"
  else if isSignedIntegerType type then
    let size := getTypeSize dm type in
    if size =? 16 then Some "n"
    else if size =? 32 then Some "i"
    else if size =? 64 then Some "x"
    else None
  else if isUnsignedIntegerType type then
    let size := getTypeSize dm type in
    if size =? 16 then Some "q"
    else if size =? 32 then Some "u"
    else if size =? 64 then Some "t"
    else None
  else if isPointerType type then
    match getPointeeType type with
    | Some pointee_type =>
        if isCharType pointee_type && isConstQualified pointee_type
        then Some "&s" (* or 'o' or 'g' *)
        else if isCharType pointee_type then Some "s"
        else if QualType_eqb pointee_type
                  (find_pointer_type_by_name dm "GVariant")
        then Some "v"
        else if isPointerType pointee_type then
          match getPointeeType pointee_type with
          | Some pointee2_type =>
              if isCharType pointee2_type then Some "^as" else None
          | None => None
          end
        else None
    | None => None
    end
  else None.

(** ** Checking one call *)

(** [g_strdup (....c_str ())]: the literal's bytes up to the first NUL. *)
Fixpoint c_str (s : string) : string :=
  match s with
  | EmptyString => EmptyString
  | String c rest => if Ascii.eqb c zero then EmptyString
                     else String c (c_str rest)
  end.

(** "Sanity check that we've consumed all arguments": the closing loop over
    the arguments still under the cursor. *)
Fixpoint unconsumed_arguments (args : list Expr) (retval : bool)
  (st : CheckState) : bool * CheckState :=
  match args with
  | [] => (retval, set_args_begin [] st)
  | arg :: rest =>
      let error_format_str := _gvariant_format_string_for_type (getType arg) in
      let st :=
        emit_error (UnconsumedArgument (getType arg) error_format_str) st in
      unconsumed_arguments rest false st
  end.

(** The flags a call starts with. *)
Definition initial_flags (func_info : VariantFuncInfo) : Z :=
  let flags := CHECK_FLAG_NONE in
  let flags :=
    if negb (uses_va_list func_info)
    then Z.lor flags CHECK_FLAG_CONSUME_ARGS
    else Z.lor flags CHECK_FLAG_FORCE_VALIST in
  (* Outbound arguments may always be NULL to skip that GVariant
     element. *)
  if negb (args_in func_info)
  then Z.lor flags (Z.lor CHECK_FLAG_DIRECTION_OUT CHECK_FLAG_ALLOW_MAYBE)
  else flags.

(** The cursors a call starts with: the format string from its beginning,
    the arguments from the first variadic one ("Skip up to the varargs"). *)
Definition initial_state (whole_format_str : string) (call_args : list Expr)
  (func_info : VariantFuncInfo) : CheckState :=
  mkState whole_format_str
          (skipn (first_vararg_param_index func_info) call_args) [] [].

(** [_check_gvariant_format_param], given the call's arguments, the callee's
    name and its table entry.  The call has at least the callee's named
    parameters, so the format argument exists and the cursor can be moved up
    to the first variadic argument. *)
Definition _check_gvariant_format_param (call_args : list Expr)
  (callee_name : string) (func_info : VariantFuncInfo) : bool * CheckState :=
  let st0 := mkState "" call_args [] [] in
  (* Grab the format parameter string. *)
  match nth_error call_args (format_param_index func_info) with
  | None => (false, st0)
  | Some format_arg =>
      match asStringLiteral format_arg with
      | None =>
          (false, emit_error (NonLiteralFormatString callee_name) st0)
      | Some format_arg_str =>
          let whole_format_str := c_str format_arg_str in
          let st := initial_state whole_format_str call_args func_info in
          let flags := initial_flags func_info in
          match _check_format_string flags st with
          | (false, st) => (false, st)
          | (true, st) =>
              (* Sanity check that we've consumed all format strings. *)
              if negb (Ascii.eqb (cur st) zero)
              then (false,
                    emit_error
                      (UnconsumedFormatString (format_str st)
                                              whole_format_str) st)
              else
                (* Sanity check that we've consumed all arguments. *)
                if negb (uses_va_list func_info)
                then unconsumed_arguments (args_begin st) true st
                else (true, st)
          end
      end
  end.

(** [GVariantVisitor::VisitCallExpr], given the name of the call's direct
    callee, if it has one, and the call's arguments: the value returned to
    the traversal, and the diagnostics of the check. *)
Definition VisitCallExpr (direct_callee : option string)
  (call_args : list Expr) : bool * list Diagnostic :=
  match direct_callee with
  | None =>
      (* Can only handle direct function calls. *)
      (true, [])
  | Some name =>
      (* We're only interested in functions which handle GVariants. *)
      match _func_uses_gvariant_format name with
      | None => (true, [])
      | Some func_info =>
          (* Check the format parameter. *)
          let r := _check_gvariant_format_param call_args name func_info in
          (true, diags (snd r))
      end
  end.

End Checker.

Arguments call {A} from flags to flags' callee st /.

(* ================================================================== *)
(** * The vocabulary of the properties *)
(* ================================================================== *)

Definition flag_bit (flag : Z) : Z := Z.log2 flag.

(** The flags the parsers set and clear are single bits. *)
Definition is_single_flag (flag : Z) : Prop :=
  flag = CHECK_FLAG_FORCE_GVARIANT \/ flag = CHECK_FLAG_FORCE_VALIST \/
  flag = CHECK_FLAG_REQUIRE_CONST \/ flag = CHECK_FLAG_DIRECTION_OUT \/
  flag = CHECK_FLAG_ALLOW_MAYBE \/ flag = CHECK_FLAG_CONSUME_ARGS.

(** Types written without typedefs. *)
Fixpoint sugar_free (t : QualType) : bool :=
  match t with
  | PointerType _ p => sugar_free p
  | TypedefType _ _ _ => false
  | _ => true
  end.

(** The same type with every qualifier removed, at every depth. *)
Fixpoint erase_qualifiers (t : QualType) : QualType :=
  match t with
  | BuiltinType _ k => BuiltinType noQuals k
  | PointerType _ p => PointerType noQuals (erase_qualifiers p)
  | TypedefType _ n u => TypedefType noQuals n (erase_qualifiers u)
  | RecordType _ tag => RecordType noQuals tag
  end.

(** The types of the comparator's documentation. *)
Definition char_ptr : QualType := getPointerType CharTy.
Definition const_char_ptr : QualType := getPointerType (getConstType CharTy).
Definition char_ptr_ptr : QualType := getPointerType char_ptr.
Definition const_char_ptr_const_ptr : QualType :=
  getPointerType (getConstType const_char_ptr).
Definition GVariant_ptr : QualType := find_pointer_type_by_name LP64 "GVariant".
Definition const_GVariant_ptr : QualType :=
  getPointerType (getConstType (find_type_by_name LP64 "GVariant")).

Abbreviation len st := (String.length (format_str st)).

(** How far a parser gets on strings shorter than [k]: it returns, never
    moves the format cursor back, and moves it forward when it returns
    true. *)
Definition progresses (k : nat) (p : Parser) : Prop :=
  forall st, (len st < k)%nat ->
    exists b st', p st = Some (b, st') /\
                  (len st' <= len st)%nat /\
                  (b = true -> (len st' < len st)%nat).

(** The ways one of the five functions hands flags to another: unchanged,
    with one of three flags set, or, from the type-string parser to itself
    for the element type of an array, with allowMaybeNull set and
    consumeArguments cleared. *)
Inductive passes : Fn -> Z -> Fn -> Z -> Prop :=
  | pass_same (from to : Fn) (flags : Z) : passes from flags to flags
  | pass_force_gvariant (from to : Fn) (flags : Z) :
      passes from flags to (Z.lor flags CHECK_FLAG_FORCE_GVARIANT)
  | pass_require_const (from to : Fn) (flags : Z) :
      passes from flags to (Z.lor flags CHECK_FLAG_REQUIRE_CONST)
  | pass_allow_maybe (from to : Fn) (flags : Z) :
      passes from flags to (Z.lor flags CHECK_FLAG_ALLOW_MAYBE)
  | pass_element (flags : Z) :
      passes Fn_check_type_string flags Fn_check_type_string
        (Z.land (Z.lor flags CHECK_FLAG_ALLOW_MAYBE)
                (Z.lnot CHECK_FLAG_CONSUME_ARGS)).

(** Without consumeArguments no parser moves the argument cursor. *)
Definition not_consuming (flags : Z) : Prop :=
  has_flag flags CHECK_FLAG_CONSUME_ARGS = false.

Definition same_args (_ : bool) (st st' : CheckState) : Prop :=
  args_begin st' = args_begin st.

(** A parser that returns true has emitted nothing. *)
Definition quiet_success (b : bool) (st st' : CheckState) : Prop :=
  b = true -> diags st' = diags st.

(** Every call a parser makes is logged, and nothing else is. *)
Definition logs (P : Call -> Prop) (_ : bool) (st st' : CheckState) : Prop :=
  exists new, calls st' = (calls st ++ new)%list /\ Forall P new.

Definition well_passed (c : Call) : Prop :=
  passes (caller c) (caller_flags c) (callee c) (callee_flags c).

(** What the callee's flags owe the caller's: every flag of the caller but
    consumeArguments is still set, and consumeArguments is dropped only by
    the type-string parser calling itself. *)
Definition flags_handed_down (c : Call) : Prop :=
  (forall flag,
      is_single_flag flag -> flag <> CHECK_FLAG_CONSUME_ARGS ->
      has_flag (caller_flags c) flag = true ->
      has_flag (callee_flags c) flag = true) /\
  (has_flag (caller_flags c) CHECK_FLAG_CONSUME_ARGS = true ->
   has_flag (callee_flags c) CHECK_FLAG_CONSUME_ARGS = false ->
   caller c = Fn_check_type_string /\ callee c = Fn_check_type_string).

(** Every call the parser logs, on any flags and any state, hands the flags
    down so. *)
Definition hands_flags_down (parser : Z -> CheckState -> bool * CheckState)
  : Prop :=
  forall flags st,
    exists new,
      calls (snd (parser flags st)) = (calls st ++ new)%list /\
      Forall flags_handed_down new.

(** GLib declares [glong] as [long] and [gulong] as [unsigned long]; a
    type that is a typedef of one of these names abbreviates that builtin. *)
Definition long_typedefs_as_in_glib (t : QualType) : bool :=
  match t with
  | TypedefType _ n _ =>
      if String.eqb n "glong" then is_kind (canonicalKind t) Long
      else if String.eqb n "gulong" then is_kind (canonicalKind t) ULong
      else true
  | _ => true
  end.

(** The 8- and 16-bit format characters. *)
Definition narrow_chars : list ascii := ["y"; "n"; "q"]%char.

(** The diagnostic for one leftover argument: its type, and the format
    string reverse inference suggests for it, if any. *)
Definition leftover_diagnostic (dm : DataModel) (arg : Expr) : Diagnostic :=
  UnconsumedArgument (getType arg)
                     (_gvariant_format_string_for_type dm (getType arg)).

(** The dict-entry production of either grammar, by its key parser and its
    member parser. *)
Definition dict_entry (g : Grammar)
  (key member : Z -> CheckState -> bool * CheckState)
  (self key_fn : Fn) (flags : Z) (st : CheckState) : bool * CheckState :=
  let st := skip 1 st in
  if Ascii.eqb (cur st) "}"
  then (false, emit_error (DictNotTwoElements g) st)
  else
    match key flags (calling self flags key_fn flags st) with
    | (false, st) => (false, st)
    | (true, st) =>
        if Ascii.eqb (cur st) "}"
        then (false, emit_error (DictNotTwoElements g) st)
        else
          match member flags (calling self flags self flags st) with
          | (false, st) => (false, st)
          | (true, st) =>
              if Ascii.eqb (cur st) zero
              then (false, emit_error (DictUnterminated g) st)
              else if negb (Ascii.eqb (cur st) "}")
              then (false, emit_error (DictTooManyElements g) st)
              else (true, skip 1 st)
          end
    end.

(** What a parser [parse] does at an opening brace, with [key] parsing the
    first member: the cases by the number of members before the closing
    brace. *)
Definition dict_entry_outcomes (g : Grammar)
  (parse key : Z -> CheckState -> bool * CheckState) (self key_fn : Fn)
  : Prop :=
  forall (flags : Z) (st : CheckState),
    cur st = "{"%char ->
    let st0 := skip 1 st in
    let first := key flags (calling self flags key_fn flags st0) in
    let second := parse flags (calling self flags self flags (snd first)) in
    (* no member *)
    (cur st0 = "}"%char ->
     parse flags st = (false, emit_error (DictNotTwoElements g) st0)) /\
    (* one member *)
    (cur st0 <> "}"%char -> fst first = true ->
     cur (snd first) = "}"%char ->
     parse flags st =
     (false, emit_error (DictNotTwoElements g) (snd first))) /\
    (* two members and more to come *)
    (cur st0 <> "}"%char -> fst first = true ->
     cur (snd first) <> "}"%char -> fst second = true ->
     cur (snd second) <> "}"%char -> cur (snd second) <> zero ->
     parse flags st =
     (false, emit_error (DictTooManyElements g) (snd second))) /\
    (* a member that fails is the failure *)
    (cur st0 <> "}"%char -> fst first = false -> parse flags st = first) /\
    (cur st0 <> "}"%char -> fst first = true ->
     cur (snd first) <> "}"%char -> fst second = false ->
     parse flags st = second) /\
    (* true for exactly two members and the closing brace *)
    (fst (parse flags st) = true <->
     cur st0 <> "}"%char /\ fst first = true /\
     cur (snd first) <> "}"%char /\ fst second = true /\
     cur (snd second) = "}"%char).

(** The spec's examples of malformed dict entries. *)
Definition malformed_dict_entries : list string := ["{}"; "{s}"; "{svs}"].

(** The characters the basic type-string parser knows. *)
Definition basic_chars : list ascii :=
  ["b"; "y"; "n"; "q"; "i"; "h"; "u"; "x"; "t"; "d"; "s"; "o"; "g"; "?"]%char.

(** In C a null-pointer constant is an integer constant expression of value
    zero, or such an expression cast to [void*]: its type is an integer type
    or [void*]. *)
Definition isVoidPointerType (t : QualType) : bool :=
  match getCanonicalType t with
  | PointerType _ (BuiltinType q Void) => Qualifiers_empty q
  | _ => false
  end.

Definition null_constant_well_typed (arg : Expr) : bool :=
  implb (isNullPointerConstant arg)
        (isSignedIntegerType (getType arg) ||
         isUnsignedIntegerType (getType arg) ||
         isVoidPointerType (getType arg)).

(** [Sema::DefaultArgumentPromotion] on an unqualified type: what Clang
    does to an argument passed for the ellipsis before the checker reads its
    type (ISO/IEC 9899, 6.5.2.2p6, which the source cites under "Handle type
    promotion"): the integer promotions, and [float] to [double]. *)
Definition DefaultArgumentPromotion (t : QualType) : QualType :=
  if isPromotableIntegerType t then getPromotedIntegerType t
  else if is_kind (canonicalKind t) Float then DoubleTy
  else t.

(** The table's entry for [g_variant_new]: inbound variadic arguments. *)
Definition g_variant_new_info : VariantFuncInfo :=
  mkFuncInfo "g_variant_new" 0 1 false true.

(** [g_variant_new (format, arg)]. *)
Definition check_one_argument (dm : DataModel) (format : string) (arg : Expr)
  : bool * CheckState :=
  _check_gvariant_format_param dm
    [mkExpr char_ptr false None (Some format); arg]
    "g_variant_new" g_variant_new_info.

(** The diagnostics the parsers emit themselves, on the structure of the
    format string; the others are the consumer's, on an argument, and the
    entry point's. *)
Definition is_structural (d : Diagnostic) : bool :=
  match d with
  | InvalidBasicType _ | InvalidConvenience | UnterminatedTuple _
  | DictNotTwoElements _ | DictUnterminated _ | DictTooManyElements _ => true
  | _ => false
  end.

Definition is_NullNotAllowed (d : Diagnostic) : bool :=
  match d with
  | NullNotAllowed _ => true
  | _ => false
  end.

(** From [st] to [st'] diagnostics have been added, if any, that are all
    in [P]. *)
Definition adds (P : Diagnostic -> bool) (st st' : CheckState) : Prop :=
  exists new,
    diags st' = (diags st ++ new)%list /\ forallb P new = true.

(** A result with the argument cursor put elsewhere. *)
Definition with_args (a : list Expr) (r : bool * CheckState)
  : bool * CheckState :=
  (fst r, set_args_begin a (snd r)).

(** The run of [parser] does not read the arguments: with the argument
    cursor at [a] in place of [a0], it does the same and leaves the cursor
    at [a]. *)
Definition unread (parser : Z -> CheckState -> bool * CheckState)
  (flags : Z) (a a0 : list Expr) : Prop :=
  forall fmt ds cs,
    parser flags (mkState fmt a ds cs) =
    with_args a (parser flags (mkState fmt a0 ds cs)).

(** The same of a parser that may run out of fuel. *)
Definition unread_fuel (parser : Z -> CheckState -> option (bool * CheckState))
  (flags : Z) (a a0 : list Expr) : Prop :=
  forall fmt ds cs,
    parser flags (mkState fmt a ds cs) =
    option_map (with_args a) (parser flags (mkState fmt a0 ds cs)).

(** Both cursors at [st'] are where they were at [st] or further on: the
    format string left is the old one less some leading characters, the
    arguments left are the old ones less some leading arguments. *)
Definition moved_forward (st st' : CheckState) : Prop :=
  (exists n, format_str st' = advance n (format_str st)) /\
  (exists consumed, args_begin st = (consumed ++ args_begin st')%list).

(** Nothing emitted on a true return, one diagnostic on a false one. *)
Definition reports_once (b : bool) (st st' : CheckState) : Prop :=
  if b then diags st' = diags st
  else exists d, diags st' = (diags st ++ [d])%list.

(** The closing character [c] does not occur in the string. *)
Definition never_closed (c : ascii) (s : string) : Prop :=
  forall n, peek (advance n s) <> c.

(** The convenience conversions that may follow a [^]. *)
Definition convenience_macros : list string :=
  ["as"; "ao"; "a&s"; "a&o"; "aay"; "ay"; "&ay"; "a&ay"].

(* ================================================================== *)
(** * Properties *)
(* ================================================================== *)

(** ** Flags as bits *)

Lemma has_flag_testbit (flags : Z) (n : Z) :
  0 <= n -> has_flag flags (Z.shiftl 1 n) = Z.testbit flags n.
Proof.
  intros Hn. unfold has_flag.
  destruct (Z.testbit flags n) eqn:Hb.
  - apply negb_true_iff, Z.eqb_neq. intros H0.
    assert (Ht : Z.testbit (Z.land flags (Z.shiftl 1 n)) n = true).
    { rewrite Z.land_spec, Hb, Z.shiftl_spec by lia.
      now replace (n - n) with 0 by lia. }
    rewrite H0, Z.bits_0 in Ht. discriminate.
  - apply negb_false_iff, Z.eqb_eq, Z.bits_inj'. intros m Hm.
    rewrite Z.land_spec, Z.bits_0, Z.shiftl_spec by lia.
    destruct (Z.eq_dec m n) as [-> | Hne].
    + now rewrite Hb.
    + assert (Z.testbit 1 (m - n) = false) as ->.
      { destruct (Z.lt_ge_cases (m - n) 0).
        - now apply Z.testbit_neg_r.
        - apply Z.bits_above_log2; simpl; lia. }
      apply andb_false_r.
Qed.

Lemma single_flag_bit (flag : Z) :
  is_single_flag flag -> 0 <= flag_bit flag /\ flag = Z.shiftl 1 (flag_bit flag).
Proof.
  intros [-> | [-> | [-> | [-> | [-> | ->]]]]]; split; vm_compute;
    congruence.
Qed.

Lemma has_flag_bit (flags flag : Z) :
  is_single_flag flag -> has_flag flags flag = Z.testbit flags (flag_bit flag).
Proof.
  intros H. destruct (single_flag_bit flag H) as [Hn Hf].
  rewrite Hf at 1. now apply has_flag_testbit.
Qed.

(** Setting one flag leaves the others as they were. *)
Lemma has_flag_lor (flags set flag : Z) :
  is_single_flag set -> is_single_flag flag ->
  has_flag (Z.lor flags set) flag = has_flag flags flag || Z.eqb set flag.
Proof.
  intros Hs Hf. rewrite !has_flag_bit by assumption.
  rewrite Z.lor_spec. f_equal.
  destruct (single_flag_bit set Hs) as [Hn Hset].
  rewrite Hset at 1. rewrite Z.shiftl_spec by (apply single_flag_bit, Hf).
  destruct Hs as [-> | [-> | [-> | [-> | [-> | ->]]]]];
    destruct Hf as [-> | [-> | [-> | [-> | [-> | ->]]]]]; reflexivity.
Qed.

(** Clearing [CHECK_FLAG_CONSUME_ARGS], as the array production does. *)
Lemma has_flag_clear_consume (flags flag : Z) :
  is_single_flag flag ->
  has_flag (Z.land flags (Z.lnot CHECK_FLAG_CONSUME_ARGS)) flag =
  has_flag flags flag && negb (Z.eqb flag CHECK_FLAG_CONSUME_ARGS).
Proof.
  intros Hf. rewrite !has_flag_bit by assumption.
  rewrite Z.land_spec. f_equal.
  rewrite Z.lnot_spec by (apply single_flag_bit, Hf).
  destruct Hf as [-> | [-> | [-> | [-> | [-> | ->]]]]]; reflexivity.
Qed.

Ltac single_flag := unfold is_single_flag; tauto.

(** ** The type comparator *)

(** The comparator, one step unfolded, as the source words it. *)
Lemma _compare_types_unfold (actual_type expected_type : QualType) (flags : Z) :
  _compare_types actual_type expected_type flags =
  if hasSameType actual_type expected_type then true
  else match dyn_cast_PointerType actual_type,
             dyn_cast_PointerType expected_type with
       | Some actual_pointee_type, Some expected_pointee_type =>
           _compare_types
             (if negb (has_flag flags CHECK_FLAG_DIRECTION_OUT)
              then getUnqualifiedType actual_pointee_type
              else actual_pointee_type)
             expected_pointee_type flags
       | _, _ => false
       end.
Proof.
  destruct expected_type; simpl;
    destruct (hasSameType actual_type _); try reflexivity;
    destruct actual_type; reflexivity.
Qed.

Lemma Qualifiers_eqb_refl (q : Qualifiers) : Qualifiers_eqb q q = true.
Proof. destruct q as [[] [] []]; reflexivity. Qed.

Lemma BuiltinKind_eqb_refl (k : BuiltinKind) : BuiltinKind_eqb k k = true.
Proof. destruct k; reflexivity. Qed.

Lemma QualType_eqb_refl (t : QualType) : QualType_eqb t t = true.
Proof.
  induction t; simpl;
    rewrite ?Qualifiers_eqb_refl, ?BuiltinKind_eqb_refl, ?String.eqb_refl,
      ?IHt; reflexivity.
Qed.

Lemma hasSameType_refl (t : QualType) : hasSameType t t = true.
Proof. apply QualType_eqb_refl. Qed.

Lemma _compare_types_refl (t : QualType) (flags : Z) :
  _compare_types t t flags = true.
Proof. rewrite _compare_types_unfold, hasSameType_refl. reflexivity. Qed.

Lemma getUnqualifiedType_sugar_free (t : QualType) :
  sugar_free t = true -> getUnqualifiedType t = withLocalQualifiers noQuals t.
Proof. destruct t; simpl; intros H; try discriminate; reflexivity. Qed.

(** Inbound, an actual pointee compares equal to its qualifier-free form,
    whatever qualifiers it carries at whatever depth. *)
Lemma _compare_types_erased (flags : Z) (a : QualType) :
  has_flag flags CHECK_FLAG_DIRECTION_OUT = false ->
  sugar_free a = true ->
  _compare_types (getUnqualifiedType a) (erase_qualifiers a) flags = true.
Proof.
  intros Hin. induction a as [q k | q p IH | q n u IH | q tag]; intros Hs.
  - apply _compare_types_refl.
  - rewrite getUnqualifiedType_sugar_free by assumption.
    rewrite _compare_types_unfold. simpl.
    destruct (hasSameType _ _); [reflexivity |].
    rewrite Hin. simpl. apply IH, Hs.
  - discriminate.
  - apply _compare_types_refl.
Qed.

Lemma _compare_types_pointer_erased (flags : Z) (q q' : Qualifiers)
  (a : QualType) :
  has_flag flags CHECK_FLAG_DIRECTION_OUT = false ->
  sugar_free a = true ->
  _compare_types (PointerType q a) (PointerType q' (erase_qualifiers a)) flags
  = true.
Proof.
  intros Hin Hs. rewrite _compare_types_unfold.
  destruct (hasSameType _ _); [reflexivity |]. simpl.
  rewrite Hin. simpl. now apply _compare_types_erased.
Qed.

(** C2, as stated, fails: with the unqualified [char*] as the actual type
    and [const char*] as the expected one the inbound comparison is false,
    and outbound [char**] and [const char * const *] differ. *)
Lemma compare_types_not_symmetric :
  has_flag CHECK_FLAG_NONE CHECK_FLAG_DIRECTION_OUT = false /\
  _compare_types char_ptr const_char_ptr CHECK_FLAG_NONE = false /\
  has_flag CHECK_FLAG_DIRECTION_OUT CHECK_FLAG_DIRECTION_OUT = true /\
  _compare_types char_ptr_ptr const_char_ptr_const_ptr
    CHECK_FLAG_DIRECTION_OUT = false.
Proof. repeat split; reflexivity. Qed.

(** C2, amended: inbound comparisons ignore the qualifiers of the actual
    type's pointees only.  With directionOut unset, any actual pointer type
    written without typedefs equals its qualifier-free form as expected
    type; so actual [const char*] equals expected [char*], actual
    [const GVariant*] equals expected [GVariant*] and actual
    [const char * const *] equals expected [char**], while actual [char*]
    does not equal expected [const char*], nor actual [GVariant*] expected
    [const GVariant*].  With directionOut set, [char**] and
    [const char * const *] are unequal in either order.  [int] equals
    [int]. *)
Theorem compare_types_actual_qualifiers :
  (forall (flags : Z) (q q' : Qualifiers) (a : QualType),
      has_flag flags CHECK_FLAG_DIRECTION_OUT = false ->
      sugar_free a = true ->
      _compare_types (PointerType q a) (PointerType q' (erase_qualifiers a))
        flags = true) /\
  _compare_types IntTy IntTy CHECK_FLAG_NONE = true /\
  _compare_types const_char_ptr char_ptr CHECK_FLAG_NONE = true /\
  _compare_types const_GVariant_ptr GVariant_ptr CHECK_FLAG_NONE = true /\
  _compare_types const_char_ptr_const_ptr char_ptr_ptr CHECK_FLAG_NONE = true /\
  _compare_types char_ptr const_char_ptr CHECK_FLAG_NONE = false /\
  _compare_types GVariant_ptr const_GVariant_ptr CHECK_FLAG_NONE = false /\
  _compare_types char_ptr_ptr const_char_ptr_const_ptr
    CHECK_FLAG_DIRECTION_OUT = false /\
  _compare_types const_char_ptr_const_ptr char_ptr_ptr
    CHECK_FLAG_DIRECTION_OUT = false.
Proof.
  split; [| repeat split; reflexivity].
  intros flags q q' a. apply _compare_types_pointer_erased.
Qed.

Lemma compare_types_actual_qualifiers_witness :
  _compare_types
    (PointerType noQuals (PointerType constQual (BuiltinType constQual Char_S)))
    (PointerType noQuals (PointerType noQuals (BuiltinType noQuals Char_S)))
    CHECK_FLAG_ALLOW_MAYBE = true.
Proof.
  exact (proj1 compare_types_actual_qualifiers CHECK_FLAG_ALLOW_MAYBE
           noQuals noQuals
           (PointerType constQual (BuiltinType constQual Char_S))
           eq_refl eq_refl).
Defined.

(** ** The variadic-argument consumer *)

Section Consumer.

Variable dm : DataModel.

Lemma consume_not_consuming (expected_type : QualType) (flags : Z)
  (st : CheckState) :
  has_flag flags CHECK_FLAG_CONSUME_ARGS = false ->
  _consume_variadic_argument dm expected_type flags st = (true, st).
Proof. intros H. unfold _consume_variadic_argument. now rewrite H. Qed.

Lemma consume_missing (expected_type : QualType) (flags : Z)
  (st : CheckState) :
  has_flag flags CHECK_FLAG_CONSUME_ARGS = true ->
  args_begin st = [] ->
  _consume_variadic_argument dm expected_type flags st =
  (false,
   emit_error (MissingArgument (flagged_expected_type dm expected_type flags))
              st).
Proof.
  intros H Hargs. unfold _consume_variadic_argument. now rewrite H, Hargs.
Qed.

Lemma consume_null (expected_type : QualType) (flags : Z) (st : CheckState)
  (arg : Expr) (rest : list Expr) :
  has_flag flags CHECK_FLAG_CONSUME_ARGS = true ->
  args_begin st = arg :: rest ->
  isNullPointerConstant arg = true ->
  let expected' := flagged_expected_type dm expected_type flags in
  _consume_variadic_argument dm expected_type flags st =
  if negb (has_flag flags CHECK_FLAG_ALLOW_MAYBE) && isPointerType expected'
  then (false, emit_error (NullNotAllowed expected') st)
  else (true, set_args_begin rest st).
Proof.
  intros H Hargs Hnull. unfold _consume_variadic_argument.
  rewrite H, Hargs, Hnull. simpl. reflexivity.
Qed.

Lemma consume_not_null (expected_type : QualType) (flags : Z)
  (st : CheckState) (arg : Expr) (rest : list Expr) :
  has_flag flags CHECK_FLAG_CONSUME_ARGS = true ->
  args_begin st = arg :: rest ->
  isNullPointerConstant arg = false ->
  let expected' := flagged_expected_type dm expected_type flags in
  let actual := checked_actual_type expected' arg in
  _consume_variadic_argument dm expected_type flags st =
  if _type_is_arch_dependent actual
  then (false, emit_error (ArchDependentMismatch expected' actual) st)
  else if negb (_compare_types actual expected' flags)
  then (false, emit_error (TypeMismatch expected' actual) st)
  else (true, set_args_begin rest st).
Proof.
  intros H Hargs Hnull. unfold _consume_variadic_argument.
  rewrite H, Hargs, Hnull. simpl. reflexivity.
Qed.

(** The consumer never touches the format cursor or the call log. *)
Lemma consume_frame (expected_type : QualType) (flags : Z) (st : CheckState) :
  let st' := snd (_consume_variadic_argument dm expected_type flags st) in
  format_str st' = format_str st /\ calls st' = calls st.
Proof.
  unfold _consume_variadic_argument.
  repeat match goal with
         | |- context [if ?b then _ else _] => destruct b
         | |- context [match ?l with [] => _ | _ :: _ => _ end] => destruct l
         end; simpl; auto.
Qed.

End Consumer.

(** The consumer's effect on the cursors and on the diagnostics. *)
Lemma consume_effect :
  forall (dm : DataModel) (expected_type : QualType) (flags : Z)
         (st : CheckState),
    let r := _consume_variadic_argument dm expected_type flags st in
    format_str (snd r) = format_str st /\
    (if fst r && has_flag flags CHECK_FLAG_CONSUME_ARGS
     then exists arg, args_begin st = arg :: args_begin (snd r)
     else args_begin (snd r) = args_begin st) /\
    (if fst r
     then diags (snd r) = diags st
     else exists d, diags (snd r) = (diags st ++ [d])%list).
Proof.
  intros dm expected_type flags st. cbv zeta.
  split; [apply consume_frame |].
  unfold _consume_variadic_argument.
  destruct (has_flag flags CHECK_FLAG_CONSUME_ARGS) eqn:Hc; simpl;
    [| now auto].
  destruct (args_begin st) as [| arg rest] eqn:Hargs; simpl;
    [now eauto |].
  destruct (isNullPointerConstant arg &&
            negb (has_flag flags CHECK_FLAG_ALLOW_MAYBE) && _); simpl;
    [now eauto |].
  destruct (negb (isNullPointerConstant arg)); simpl; [| now eauto].
  destruct (_type_is_arch_dependent _); simpl; [now eauto |].
  destruct (negb (_compare_types _ _ _)); simpl; now eauto.
Qed.

(** C10: one call of the consumer leaves the format cursor alone and moves
    the argument cursor by exactly one argument when it returns true with
    consumeArguments set, and not at all otherwise (consumeArguments unset,
    or a false return for whichever reason); a true return emits nothing, a
    false return exactly one diagnostic. *)
Theorem consume_moves_cursor_by_one_or_not_at_all :
  forall (dm : DataModel) (expected_type : QualType) (flags : Z)
         (st : CheckState),
    let r := _consume_variadic_argument dm expected_type flags st in
    format_str (snd r) = format_str st /\
    (if fst r && has_flag flags CHECK_FLAG_CONSUME_ARGS
     then exists arg, args_begin st = arg :: args_begin (snd r)
     else args_begin (snd r) = args_begin st) /\
    (if fst r
     then diags (snd r) = diags st
     else exists d, diags (snd r) = (diags st ++ [d])%list).
Proof. exact consume_effect. Qed.

(** C1, as stated, fails: the literal [0] is a null-pointer constant, and
    for the expected type [int], allowMaybeNull unset, it is consumed
    without complaint; so [g_variant_new ("i", 0)] checks clean. *)
Lemma null_constant_for_int_is_consumed :
  let zero_literal := mkExpr IntTy true (Some 0) None in
  let format := mkExpr char_ptr false None (Some "i") in
  let flags := CHECK_FLAG_CONSUME_ARGS in
  has_flag flags CHECK_FLAG_CONSUME_ARGS = true /\
  has_flag flags CHECK_FLAG_ALLOW_MAYBE = false /\
  isNullPointerConstant zero_literal = true /\
  isPointerType (flagged_expected_type LP64 IntTy flags) = false /\
  _consume_variadic_argument LP64 IntTy flags
    (mkState "" [zero_literal] [] []) = (true, mkState "" [] [] []) /\
  (let r := _check_gvariant_format_param LP64 [format; zero_literal]
              "g_variant_new" (mkFuncInfo "g_variant_new" 0 1 false true) in
   fst r = true /\ diags (snd r) = []).
Proof. repeat split; reflexivity. Qed.

(** C1, amended: when consumeArguments is set and the next argument is a
    null-pointer constant, the consumer fails, with NullNotAllowed and
    without moving the cursor, exactly when allowMaybeNull is unset and the
    flag-adjusted expected type is a pointer type; in every other case (
    allowMaybeNull set, or a non-pointer expected type such as int) it
    returns true and moves the cursor past that argument. *)
Theorem null_constant_outcome :
  forall (dm : DataModel) (expected_type : QualType) (flags : Z)
         (st : CheckState) (arg : Expr) (rest : list Expr),
    has_flag flags CHECK_FLAG_CONSUME_ARGS = true ->
    args_begin st = arg :: rest ->
    isNullPointerConstant arg = true ->
    let expected' := flagged_expected_type dm expected_type flags in
    _consume_variadic_argument dm expected_type flags st =
    if negb (has_flag flags CHECK_FLAG_ALLOW_MAYBE) && isPointerType expected'
    then (false, emit_error (NullNotAllowed expected') st)
    else (true, set_args_begin rest st).
Proof.
  intros dm expected_type flags st arg rest Hc Hargs Hnull.
  exact (consume_null dm expected_type flags st arg rest Hc Hargs Hnull).
Qed.

Lemma null_constant_outcome_witness :
  let null := mkExpr (PointerType noQuals (BuiltinType noQuals Void))
                     true None None in
  let st := mkState "" [null] [] [] in
  _consume_variadic_argument LP64 char_ptr CHECK_FLAG_CONSUME_ARGS st =
  (false, emit_error (NullNotAllowed char_ptr) st).
Proof.
  exact (null_constant_outcome LP64 char_ptr CHECK_FLAG_CONSUME_ARGS
           (mkState "" [mkExpr (PointerType noQuals (BuiltinType noQuals Void))
                               true None None] [] [])
           _ [] eq_refl eq_refl eq_refl).
Defined.

(** Reading a literal as unsigned does not hide an architecture-dependent
    static type. *)
Lemma arch_dependent_static_type (expected_type : QualType) (arg : Expr) :
  long_typedefs_as_in_glib (getType arg) = true ->
  _type_is_arch_dependent (getType arg) = true ->
  _type_is_arch_dependent (checked_actual_type expected_type arg) = true.
Proof.
  unfold checked_actual_type, is_promotable_literal.
  destruct (isIntegerConstantExpr arg) as [v |]; [| trivial].
  destruct ((0 <=? v) && isUnsignedIntegerType expected_type); [| trivial].
  simpl. unfold hasSignedIntegerRepresentation, isSignedIntegerType,
           getCorrespondingUnsignedType.
  destruct (getType arg) as [q k | q p | q n u | q tag]; simpl.
  - destruct q as [[] [] []], k; simpl; intros _ H; try discriminate H;
      reflexivity.
  - trivial.
  - unfold canonicalKind. simpl. intros Hk Ha.
    assert (Ht : _type_is_arch_dependent (TypedefType q n u) = true)
      by exact Ha.
    destruct (dyn_cast_BuiltinType _) as [k |]; [| exact Ht].
    destruct (String.eqb n "glong"), (String.eqb n "gulong"), k;
      simpl in *; try discriminate; try exact Ht; reflexivity.
  - trivial.
Qed.

(** C3, as stated, fails: on LP64 the constant [(gint64) 5] has the static
    type [gint64], which is not architecture-dependent and does not compare
    equal to the [guint32] that [u] expects, so the claim has it refused with
    TypeMismatch.  But the constant is non-negative and of signed type and
    the expected type is unsigned: the consumer checks it as [unsigned long],
    and [g_variant_new ("u", (gint64) 5)] is refused with
    ArchDependentMismatch. *)
Lemma signed_constant_is_checked_as_unsigned :
  let gint64 := find_type_by_name LP64 "gint64" in
  let guint32 := find_type_by_name LP64 "guint32" in
  let five := mkExpr gint64 false (Some 5) None in
  let flags := CHECK_FLAG_CONSUME_ARGS in
  let st := mkState "" [five] [] [] in
  basic_expected_type LP64 "u" = Some guint32 /\
  isNullPointerConstant five = false /\
  _type_is_arch_dependent (getType five) = false /\
  _compare_types (getType five) guint32 flags = false /\
  _consume_variadic_argument LP64 guint32 flags st =
  (false, emit_error (ArchDependentMismatch guint32 UnsignedLongTy) st) /\
  (let r := check_one_argument LP64 "u" five in
   fst r = false /\
   diags (snd r) = [ArchDependentMismatch guint32 UnsignedLongTy]).
Proof. repeat split; reflexivity. Qed.

(** C3, amended: when consumeArguments is set and the next argument is not
    a null-pointer constant, the consumer checks the argument's type (its
    static type, read as the corresponding unsigned type when the argument
    is a non-negative integer constant of signed type facing an unsigned
    expected type) in this order: if it is architecture-dependent the call
    fails with ArchDependentMismatch, whether or not the types compare
    equal, and so it does whenever the static type itself is
    architecture-dependent; otherwise, if the comparison with the expected
    type fails, the call fails with TypeMismatch; it returns true exactly
    when both checks pass. *)
Theorem arch_check_precedes_type_check :
  forall (dm : DataModel) (expected_type : QualType) (flags : Z)
         (st : CheckState) (arg : Expr) (rest : list Expr),
    has_flag flags CHECK_FLAG_CONSUME_ARGS = true ->
    args_begin st = arg :: rest ->
    isNullPointerConstant arg = false ->
    let expected' := flagged_expected_type dm expected_type flags in
    let actual := checked_actual_type expected' arg in
    let r := _consume_variadic_argument dm expected_type flags st in
    (is_promotable_literal expected' arg = false -> actual = getType arg) /\
    (long_typedefs_as_in_glib (getType arg) = true ->
     _type_is_arch_dependent (getType arg) = true ->
     r = (false, emit_error (ArchDependentMismatch expected' actual) st)) /\
    (_type_is_arch_dependent actual = true ->
     r = (false, emit_error (ArchDependentMismatch expected' actual) st)) /\
    (_type_is_arch_dependent actual = false ->
     _compare_types actual expected' flags = false ->
     r = (false, emit_error (TypeMismatch expected' actual) st)) /\
    (fst r = true <->
     _type_is_arch_dependent actual = false /\
     _compare_types actual expected' flags = true).
Proof.
  intros dm expected_type flags st arg rest Hc Hargs Hnull. cbv zeta.
  rewrite (consume_not_null dm expected_type flags st arg rest Hc Hargs Hnull).
  cbv zeta. split; [| split; [| split; [| split]]].
  - unfold checked_actual_type. now intros ->.
  - intros Hg Ha. now rewrite (arch_dependent_static_type _ _ Hg Ha).
  - now intros ->.
  - now intros -> ->.
  - destruct (_type_is_arch_dependent _), (_compare_types _ _ _); simpl;
      split; intros H; try discriminate; try (destruct H; discriminate);
      auto.
Qed.

(** On an LP64 target [long] and [gint64] are the same type, and still a
    [long] argument for the format character [x] is refused as
    architecture-dependent. *)
Lemma arch_check_precedes_type_check_witness :
  let long_arg := mkExpr LongTy false None None in
  let gint64 := find_type_by_name LP64 "gint64" in
  let st := mkState "" [long_arg] [] [] in
  _compare_types LongTy gint64 CHECK_FLAG_CONSUME_ARGS = true /\
  _consume_variadic_argument LP64 gint64 CHECK_FLAG_CONSUME_ARGS st =
  (false, emit_error (ArchDependentMismatch gint64 LongTy) st).
Proof.
  split; [reflexivity |].
  exact (proj1 (proj2
    (arch_check_precedes_type_check LP64 (find_type_by_name LP64 "gint64")
       CHECK_FLAG_CONSUME_ARGS
       (mkState "" [mkExpr LongTy false None None] [] [])
       _ [] eq_refl eq_refl eq_refl)) eq_refl eq_refl).
Defined.

(** ** The format cursor *)

Lemma advance_length (n : nat) (s : string) :
  (String.length (advance n s) <= String.length s)%nat.
Proof.
  revert s. induction n as [| n IH]; intros [| c s]; simpl;
    try specialize (IH s); lia.
Qed.

Lemma skip_length (n : nat) (st : CheckState) : (len (skip n st) <= len st)%nat.
Proof. apply advance_length. Qed.

(** Moving past a character that is not the terminator shortens the rest of
    the string by one. *)
Lemma skip_one_length (st : CheckState) :
  cur st <> zero -> len st = S (len (skip 1 st)).
Proof.
  unfold cur, skip. destruct (format_str st) as [| c s]; simpl.
  - congruence.
  - destruct s; reflexivity.
Qed.

Lemma cur_String (st : CheckState) :
  cur st <> zero -> format_str st = String (cur st) (format_str (skip 1 st)).
Proof.
  unfold cur, skip. destruct (format_str st) as [| c s]; simpl.
  - congruence.
  - destruct s; reflexivity.
Qed.

Section Progress.

Variable dm : DataModel.

Lemma basic_expected_type_nonzero (c : ascii) (t : QualType) :
  basic_expected_type dm c = Some t -> c <> zero.
Proof. intros H ->. discriminate H. Qed.

Lemma basic_type_progress (flags : Z) (st : CheckState) :
  let r := _check_basic_type_string dm flags st in
  (len (snd r) <= len st)%nat /\ (fst r = true -> (len (snd r) < len st)%nat).
Proof.
  cbv zeta. unfold _check_basic_type_string, call.
  destruct (basic_expected_type dm (cur st)) as [t |] eqn:E; simpl.
  - apply basic_expected_type_nonzero in E.
    pose proof (skip_one_length st E) as Hl.
    match goal with
    | |- context [_consume_variadic_argument dm ?T ?f ?s] =>
        destruct (consume_frame dm T f s) as [-> _]
    end.
    simpl in *. lia.
  - split; [lia | discriminate].
Qed.

Lemma basic_format_progress (flags : Z) (st : CheckState) :
  let r := _check_basic_format_string dm flags st in
  (len (snd r) <= len st)%nat /\ (fst r = true -> (len (snd r) < len st)%nat).
Proof.
  cbv zeta. unfold _check_basic_format_string, call.
  destruct (basic_format_case (cur st)) eqn:E;
    try (assert (Hnz : cur st <> zero)
           by (intros E0; rewrite E0 in E; discriminate E);
         pose proof (skip_one_length st Hnz) as Hl).
  - match goal with
    | |- context [_check_basic_type_string dm ?f ?s] =>
        destruct (basic_type_progress f s) as [H1 H2]
    end.
    simpl in *. split; [lia |]. intros H. specialize (H2 H). lia.
  - match goal with
    | |- context [_consume_variadic_argument dm ?T ?f ?s] =>
        destruct (consume_frame dm T f s) as [-> _]
    end.
    simpl in *. lia.
  - match goal with
    | |- context [_check_basic_type_string dm ?f ?s] =>
        destruct (basic_type_progress f s) as [H1 H2]
    end.
    simpl in *. split; [lia |]. intros H. specialize (H2 H). lia.
  - destruct (convenience_conversion _) as [[t n] |]; simpl.
    + match goal with
      | |- context [_consume_variadic_argument dm ?T ?f ?s] =>
          destruct (consume_frame dm T f s) as [-> _]
      end.
      pose proof (skip_length n (skip 1 st)). simpl in *. lia.
    + simpl in *. split; [lia | discriminate].
  - match goal with
    | |- context [_check_basic_type_string dm ?f ?s] =>
        destruct (basic_type_progress f s) as [H1 H2]
    end.
    simpl in *. auto.
Qed.

(** The tuple loop returns when its member parser progresses. *)
Lemma while_members_progress (k : nat) (member : Parser) :
  progresses k member ->
  forall n st, (len st <= n)%nat -> (len st < k)%nat ->
    exists b st', while_members member n st = Some (b, st') /\
                  (len st' <= len st)%nat.
Proof.
  intros Hp. induction n as [| n IH]; intros st Hn Hk.
  - exists true, st. split; [| lia]. simpl.
    unfold cur. destruct (format_str st); [reflexivity | simpl in Hn; lia].
  - simpl. destruct (negb (Ascii.eqb (cur st) ")") && _); [| now eauto].
    destruct (Hp st Hk) as (b & st1 & -> & Hle & Hlt).
    destruct b; [| now eauto].
    specialize (Hlt eq_refl).
    destruct (IH st1) as (b' & st2 & -> & Hle2); try lia.
    exists b', st2. split; [reflexivity | lia].
Qed.

End Progress.

(** The character under the cursor is not the terminator. *)
Ltac nonzero_cur E :=
  match type of E with
  | _ (cur ?st) = _ =>
      let Hnz := fresh "Hnz" in
      let Hl := fresh "Hl" in
      assert (Hnz : cur st <> zero)
        by (let E0 := fresh in intros E0; rewrite E0 in E; discriminate E);
      pose proof (skip_one_length st Hnz) as Hl
  end.

(** ** The parsers return *)

Section Totality.

Variable dm : DataModel.

Ltac consumer_returns :=
  match goal with
  | |- context [_consume_variadic_argument dm ?T ?f ?s] =>
      let Hf := fresh "Hf" in
      destruct (consume_frame dm T f s) as [Hf _];
      destruct (_consume_variadic_argument dm T f s) as [b' st'];
      exists b', st'; simpl in *;
      split; [reflexivity | rewrite Hf; split; [lia | intros; lia]]
  end.

Ltac basic_type_returns :=
  match goal with
  | |- context [_check_basic_type_string dm ?f ?s] =>
      let H1 := fresh "H1" in
      let H2 := fresh "H2" in
      destruct (basic_type_progress dm f s) as [H1 H2];
      destruct (_check_basic_type_string dm f s) as [b' st']
  end.

Ltac basic_format_returns :=
  match goal with
  | |- context [_check_basic_format_string dm ?f ?s] =>
      let H1 := fresh "H1" in
      let H2 := fresh "H2" in
      destruct (basic_format_progress dm f s) as [H1 H2];
      destruct (_check_basic_format_string dm f s) as [b' st']
  end.

(** After the members of a dict entry: the closing brace. *)
Ltac dict_end st :=
  destruct (Ascii.eqb (cur st) zero);
  [| destruct (negb (Ascii.eqb (cur st) "}"))];
  eexists _, _; (split; [reflexivity |]);
  pose proof (skip_length 1 st); simpl in *;
  (split; [lia | first [discriminate | lia]]).

Ltac tuple_end st :=
  destruct (negb (Ascii.eqb (cur st) ")"));
  eexists _, _; (split; [reflexivity |]);
  pose proof (skip_length 1 st); simpl in *;
  (split; [lia | first [discriminate | lia]]).

Lemma check_type_string_progress (fuel : nat) (flags : Z) :
  progresses fuel (check_type_string_fuel dm fuel flags).
Proof.
  revert flags.
  induction fuel as [| fuel IH]; intros flags st Hlt; [lia |].
  simpl. destruct (type_case (cur st)) eqn:E; try nonzero_cur E.
  - consumer_returns.
  - match goal with
    | |- context [check_type_string_fuel dm fuel ?f ?s] =>
        destruct (IH f s) as (b & st1 & -> & Hle & _); [simpl in *; lia |]
    end.
    destruct b; [consumer_returns |].
    exists false, st1. simpl in *. split; [reflexivity |].
    split; [lia | discriminate].
  - match goal with
    | |- context [check_type_string_fuel dm fuel ?f ?s] =>
        destruct (IH f s) as (b & st1 & -> & Hle & Hlt1); [simpl in *; lia |]
    end.
    exists b, st1. simpl in *. split; [reflexivity |].
    split; [lia |]. intros Hb. specialize (Hlt1 Hb). lia.
  - match goal with
    | |- context [while_members ?m fuel ?s] =>
        destruct (while_members_progress fuel m) with (n := fuel) (st := s)
          as (b & st1 & -> & Hle); try (simpl in *; lia)
    end.
    { intros s Hs. unfold call.
      destruct (IH flags
                  (calling Fn_check_type_string flags Fn_check_type_string
                           flags s) Hs) as (b & s' & -> & H).
      now exists b, s'. }
    destruct b.
    + simpl in Hle. tuple_end st1.
    + exists false, st1. simpl in *. split; [reflexivity |].
      split; [lia | discriminate].
  - consumer_returns.
  - destruct (Ascii.eqb (cur (skip 1 st)) "}").
    { eexists _, _. split; [reflexivity |]. simpl in *.
      split; [lia | discriminate]. }
    basic_type_returns. simpl in H1, H2.
    destruct b'.
    2:{ exists false, st'. simpl in *. split; [reflexivity |].
        split; [lia | discriminate]. }
    specialize (H2 eq_refl).
    destruct (Ascii.eqb (cur st') "}").
    { eexists _, _. split; [reflexivity |]. simpl in *.
      split; [lia | discriminate]. }
    match goal with
    | |- context [check_type_string_fuel dm fuel ?f ?s] =>
        destruct (IH f s) as (b & st1 & -> & Hle & Hlt1); [simpl in *; lia |]
    end.
    destruct b.
    + simpl in Hle. dict_end st1.
    + exists false, st1. simpl in *. split; [reflexivity |].
      split; [lia | discriminate].
  - consumer_returns.
  - basic_type_returns. exists b', st'. simpl in *. auto.
Qed.

Lemma check_format_string_progress (fuel : nat) (flags : Z) :
  progresses fuel (check_format_string_fuel dm fuel flags).
Proof.
  revert flags.
  induction fuel as [| fuel IH]; intros flags st Hlt; [lia |].
  cbn [check_format_string_fuel call].
  destruct (format_case (cur st)) eqn:E; try nonzero_cur E.
  - match goal with
    | |- context [check_type_string_fuel dm ?n ?f ?s] =>
        destruct (check_type_string_progress n f s)
          as (b & st1 & -> & Hle & Hlt1); [simpl in *; lia |]
    end.
    exists b, st1. simpl in *. split; [reflexivity |].
    split; [lia |]. intros Hb. specialize (Hlt1 Hb). lia.
  - match goal with
    | |- context [check_format_string_fuel dm fuel ?f ?s] =>
        destruct (IH f s) as (b & st1 & -> & Hle & Hlt1); [simpl in *; lia |]
    end.
    exists b, st1. simpl in *. split; [reflexivity |].
    split; [lia |]. intros Hb. specialize (Hlt1 Hb). lia.
  - consumer_returns.
  - match goal with
    | |- context [while_members ?m fuel ?s] =>
        destruct (while_members_progress fuel m) with (n := fuel) (st := s)
          as (b & st1 & -> & Hle); try (simpl in *; lia)
    end.
    { intros s Hs. unfold call.
      destruct (IH flags
                  (calling Fn_check_format_string flags
                           Fn_check_format_string flags s) Hs)
        as (b & s' & -> & H).
      now exists b, s'. }
    destruct b.
    + simpl in Hle. tuple_end st1.
    + exists false, st1. simpl in *. split; [reflexivity |].
      split; [lia | discriminate].
  - destruct (Ascii.eqb (cur (skip 1 st)) "}").
    { eexists _, _. split; [reflexivity |]. simpl in *.
      split; [lia | discriminate]. }
    basic_format_returns. simpl in H1, H2.
    destruct b'.
    2:{ exists false, st'. simpl in *. split; [reflexivity |].
        split; [lia | discriminate]. }
    specialize (H2 eq_refl).
    destruct (Ascii.eqb (cur st') "}").
    { eexists _, _. split; [reflexivity |]. simpl in *.
      split; [lia | discriminate]. }
    match goal with
    | |- context [check_format_string_fuel dm fuel ?f ?s] =>
        destruct (IH f s) as (b & st1 & -> & Hle & Hlt1); [simpl in *; lia |]
    end.
    destruct b.
    + simpl in Hle. dict_end st1.
    + exists false, st1. simpl in *. split; [reflexivity |].
      split; [lia | discriminate].
  - match goal with
    | |- context [check_type_string_fuel dm ?n ?f ?s] =>
        destruct (check_type_string_progress n f s)
          as (b & st1 & -> & Hle & Hlt1); [simpl in *; lia |]
    end.
    exists b, st1. simpl in *. split; [reflexivity |].
    split; [lia |]. intros Hb. specialize (Hlt1 Hb). lia.
  - basic_format_returns. exists b', st'. simpl in *. auto.
  - match goal with
    | |- context [check_type_string_fuel dm ?n ?f ?s] =>
        destruct (check_type_string_progress n f s)
          as (b & st1 & -> & Hle & Hlt1); [simpl in *; lia |]
    end.
    exists b, st1. simpl in *. auto.
Qed.

End Totality.

(** ** Fuel beyond the length of the string changes nothing *)

Section Fuel.

Variable dm : DataModel.

Lemma progresses_le (k k' : nat) (p : Parser) :
  (k' <= k)%nat -> progresses k p -> progresses k' p.
Proof. intros Hk Hp st Hst. apply Hp. lia. Qed.

Lemma while_members_irrelevant (k : nat) (p p' : Parser) :
  progresses k p ->
  (forall st, (len st < k)%nat -> p st = p' st) ->
  forall n n' st,
    (len st <= n)%nat -> (len st <= n')%nat -> (len st < k)%nat ->
    while_members p n st = while_members p' n' st.
Proof.
  intros Hp Hagree.
  induction n as [| n IH]; intros n' st Hn Hn' Hk.
  - assert (Hz : cur st = zero).
    { unfold cur. destruct (format_str st); [reflexivity | simpl in Hn; lia]. }
    destruct n'; simpl; rewrite Hz; reflexivity.
  - destruct n' as [| n'].
    + assert (Hz : cur st = zero).
      { unfold cur.
        destruct (format_str st); [reflexivity | simpl in Hn'; lia]. }
      simpl; rewrite Hz; reflexivity.
    + simpl. destruct (negb (Ascii.eqb (cur st) ")") && _); [| reflexivity].
      rewrite <- (Hagree st Hk).
      destruct (Hp st Hk) as (b & st1 & -> & Hle & Hlt).
      destruct b; [| reflexivity].
      specialize (Hlt eq_refl). apply IH; lia.
Qed.

Lemma check_type_string_fuel_irrelevant (n m : nat) (flags : Z)
  (st : CheckState) :
  (len st < n)%nat -> (len st < m)%nat ->
  check_type_string_fuel dm n flags st = check_type_string_fuel dm m flags st.
Proof.
  revert m flags st.
  induction n as [| n IH]; intros m flags st Hn Hm; [lia |].
  destruct m as [| m]; [lia |].
  simpl. destruct (type_case (cur st)) eqn:E; try nonzero_cur E;
    try reflexivity.
  - rewrite (IH m) by (simpl in *; lia). reflexivity.
  - apply IH; simpl in *; lia.
  - rewrite while_members_irrelevant
      with (k := Nat.min n m) (n' := m)
           (p' := fun st0 => check_type_string_fuel dm m flags
                    (calling Fn_check_type_string flags Fn_check_type_string
                             flags st0));
      try (simpl in *; lia); [reflexivity | |].
    + apply progresses_le with (k := n); [lia |].
      intros s Hs.
      apply (check_type_string_progress dm n flags
               (calling Fn_check_type_string flags Fn_check_type_string
                        flags s) Hs).
    + intros s Hs. unfold call. apply IH; simpl; lia.
  - destruct (Ascii.eqb (cur (skip 1 st)) "}"); [reflexivity |].
    match goal with
    | |- context [_check_basic_type_string dm ?f ?s] =>
        destruct (basic_type_progress dm f s) as [H1 H2];
        destruct (_check_basic_type_string dm f s) as [[] st1];
        [| reflexivity]
    end.
    specialize (H2 eq_refl).
    destruct (Ascii.eqb (cur st1) "}"); [reflexivity |].
    rewrite (IH m) by (simpl in *; lia). reflexivity.
Qed.

Lemma check_format_string_fuel_irrelevant (n m : nat) (flags : Z)
  (st : CheckState) :
  (len st < n)%nat -> (len st < m)%nat ->
  check_format_string_fuel dm n flags st =
  check_format_string_fuel dm m flags st.
Proof.
  revert m flags st.
  induction n as [| n IH]; intros m flags st Hn Hm; [lia |].
  destruct m as [| m]; [lia |].
  cbn [check_format_string_fuel call].
  destruct (format_case (cur st)) eqn:E; try nonzero_cur E;
    try reflexivity;
    try (apply check_type_string_fuel_irrelevant; simpl in *; lia).
  - apply IH; simpl in *; lia.
  - rewrite while_members_irrelevant
      with (k := Nat.min n m) (n' := m)
           (p' := fun st0 => check_format_string_fuel dm m flags
                    (calling Fn_check_format_string flags
                             Fn_check_format_string flags st0));
      try (simpl in *; lia); [reflexivity | |].
    + apply progresses_le with (k := n); [lia |].
      intros s Hs.
      apply (check_format_string_progress dm n flags
               (calling Fn_check_format_string flags Fn_check_format_string
                        flags s) Hs).
    + intros s Hs. unfold call. apply IH; simpl; lia.
  - destruct (Ascii.eqb (cur (skip 1 st)) "}"); [reflexivity |].
    match goal with
    | |- context [_check_basic_format_string dm ?f ?s] =>
        destruct (basic_format_progress dm f s) as [H1 H2];
        destruct (_check_basic_format_string dm f s) as [[] st1];
        [| reflexivity]
    end.
    specialize (H2 eq_refl).
    destruct (Ascii.eqb (cur st1) "}"); [reflexivity |].
    rewrite (IH m) by (simpl in *; lia). reflexivity.
Qed.

(** The parsers are total: with fuel beyond the length of the string the
    fuelled parser returns what the parser returns. *)
Lemma check_type_string_returns (fuel : nat) (flags : Z) (st : CheckState) :
  (len st < fuel)%nat ->
  check_type_string_fuel dm fuel flags st =
  Some (_check_type_string dm flags st).
Proof.
  intros Hlt. unfold _check_type_string.
  rewrite (check_type_string_fuel_irrelevant fuel (enough_fuel st))
    by (unfold enough_fuel; lia).
  destruct (check_type_string_progress dm (enough_fuel st) flags st)
    as (b & st' & -> & _); [unfold enough_fuel; lia | reflexivity].
Qed.

Lemma check_format_string_returns (fuel : nat) (flags : Z) (st : CheckState) :
  (len st < fuel)%nat ->
  check_format_string_fuel dm fuel flags st =
  Some (_check_format_string dm flags st).
Proof.
  intros Hlt. unfold _check_format_string.
  rewrite (check_format_string_fuel_irrelevant fuel (enough_fuel st))
    by (unfold enough_fuel; lia).
  destruct (check_format_string_progress dm (enough_fuel st) flags st)
    as (b & st' & -> & _); [unfold enough_fuel; lia | reflexivity].
Qed.

Lemma check_type_string_progress' (flags : Z) (st : CheckState) :
  let r := _check_type_string dm flags st in
  (len (snd r) <= len st)%nat /\ (fst r = true -> (len (snd r) < len st)%nat).
Proof.
  cbv zeta.
  destruct (check_type_string_progress dm (enough_fuel st) flags st)
    as (b & st' & H & Hle & Hlt); [unfold enough_fuel; lia |].
  rewrite check_type_string_returns in H by (unfold enough_fuel; lia).
  injection H as ->. auto.
Qed.

Lemma check_format_string_progress' (flags : Z) (st : CheckState) :
  let r := _check_format_string dm flags st in
  (len (snd r) <= len st)%nat /\ (fst r = true -> (len (snd r) < len st)%nat).
Proof.
  cbv zeta.
  destruct (check_format_string_progress dm (enough_fuel st) flags st)
    as (b & st' & H & Hle & Hlt); [unfold enough_fuel; lia |].
  rewrite check_format_string_returns in H by (unfold enough_fuel; lia).
  injection H as ->. auto.
Qed.

End Fuel.

(** ** What every run of the parsers preserves *)

Section Invariant.

Variable dm : DataModel.

(** A property [F] of flags kept by every way of passing them, and a
    relation [R] between the states before and after a run, indexed by the
    run's return value, that holds of each step a parser takes. *)
Variable F : Z -> Prop.
Variable R : bool -> CheckState -> CheckState -> Prop.

Hypothesis F_passes :
  forall from flags to flags', passes from flags to flags' ->
                               F flags -> F flags'.
Hypothesis R_refl : forall st, R true st st.
Hypothesis R_trans :
  forall b st1 st2 st3, R true st1 st2 -> R b st2 st3 -> R b st1 st3.
Hypothesis R_skip : forall n st, R true st (skip n st).
Hypothesis R_emit :
  forall d st, is_structural d = true -> R false st (emit_error d st).
Hypothesis R_calling :
  forall from flags to flags' st,
    passes from flags to flags' -> F flags ->
    R true st (calling from flags to flags' st).
Hypothesis R_consume :
  forall expected_type flags st, F flags ->
    let r := _consume_variadic_argument dm expected_type flags st in
    R (fst r) st (snd r).

(** [R true st s] for a state [s] reached from [st] by moving the cursor,
    logging calls, and runs already known to be in [R]. *)
Ltac reach :=
  lazymatch goal with
  | |- R true ?st ?st => apply R_refl
  | |- R true ?st (calling ?a ?f ?b ?f' ?s) =>
      apply (R_trans true st s);
      [reach | apply R_calling; [constructor | assumption]]
  | |- R true ?st (skip ?n ?s) =>
      apply (R_trans true st s); [reach | apply R_skip]
  | E : R true ?s0 ?s1 |- R true ?st ?s1 =>
      apply (R_trans true st s0 s1); [reach | exact E]
  end.

(** The run ends in a call of the consumer or of a basic parser, in a
    diagnostic, or in a run already known to be in [R]. *)
Ltac close :=
  simpl;
  lazymatch goal with
  | |- R (fst (_consume_variadic_argument dm ?T ?f ?s)) ?st _ =>
      apply (R_trans _ st s); [reach | apply R_consume; assumption]
  | |- R false ?st (emit_error ?d ?s) =>
      apply (R_trans false st s); [reach | apply R_emit; reflexivity]
  | E : R ?b ?s0 ?s1 |- R ?b ?st ?s1 =>
      apply (R_trans b st s0 s1); [reach | exact E]
  | |- R true _ _ => reach
  end.

Lemma basic_type_preserves (flags : Z) (st : CheckState) :
  F flags ->
  let r := _check_basic_type_string dm flags st in R (fst r) st (snd r).
Proof.
  intros HF. cbv zeta. unfold _check_basic_type_string, call.
  destruct (basic_expected_type dm (cur st)); close.
Qed.

Lemma basic_format_preserves (flags : Z) (st : CheckState) :
  F flags ->
  let r := _check_basic_format_string dm flags st in R (fst r) st (snd r).
Proof.
  intros HF. cbv zeta. unfold _check_basic_format_string, call.
  pose proof (F_passes _ _ _ _
                (pass_force_gvariant Fn_check_basic_format_string
                   Fn_check_basic_type_string flags) HF) as HFg.
  pose proof (F_passes _ _ _ _
                (pass_require_const Fn_check_basic_format_string
                   Fn_check_basic_type_string flags) HF) as HFc.
  destruct (basic_format_case (cur st));
    try (destruct (convenience_conversion _) as [[t n] |]);
    try close;
    match goal with
    | |- R (fst (_check_basic_type_string dm ?f ?s)) ?st _ =>
        apply (R_trans _ st s);
        [reach | apply basic_type_preserves; assumption]
    end.
Qed.

Lemma while_members_preserves (member : Parser) :
  (forall st r, member st = Some r -> R (fst r) st (snd r)) ->
  forall n st r,
    while_members member n st = Some r -> R (fst r) st (snd r).
Proof.
  intros Hm. induction n as [| n IH]; intros st r H; simpl in H;
    destruct (negb (Ascii.eqb (cur st) ")") && _);
    try discriminate;
    try (injection H as <-; now apply R_refl).
  destruct (member st) as [[[] st1] |] eqn:E; try discriminate.
  - eapply R_trans; [apply (Hm _ _ E) | now apply IH].
  - injection H as <-. apply (Hm _ _ E).
Qed.

(** The case analysis shared by the two recursive parsers: run the
    sub-parsers met in [H] one after the other, each by [IH], by [IH'] or
    by the lemma [basic] for the basic parsers. *)
Ltac descend H IH IH' basic :=
  repeat
    match type of H with
    | Some _ = Some _ =>
        injection H as <-;
        first [ close
              | lazymatch goal with
                | |- R (fst (_ dm ?f ?s)) ?st _ =>
                    apply (R_trans _ st s);
                    [reach | apply basic; assumption]
                end ]
    | context [if ?c then _ else _] => destruct c
    | context [while_members ?m ?n ?s] =>
        let E := fresh "E" in
        destruct (while_members m n s) as [[[] ?] |] eqn:E;
        try discriminate;
        (apply while_members_preserves in E;
         [ simpl in E
         | let Hs := fresh in
           intros ? ? Hs; apply IH in Hs; [close | assumption] ])
    | context [match ?parser dm ?f ?s with (_, _) => _ end] =>
        let Hk := fresh "Hk" in
        pose proof (basic f s ltac:(assumption)) as Hk;
        destruct (parser dm f s) as [[] ?];
        simpl in H, Hk
    | context [match ?call with Some _ => _ | None => _ end] =>
        let E := fresh "E" in
        destruct call as [[[] ?] |] eqn:E; try discriminate;
        (first [ apply IH in E | apply IH' in E ];
         [simpl in E | assumption])
    | _ = Some _ =>
        first [ apply IH in H | apply IH' in H ]; [close | assumption]
    end.

Lemma check_type_string_fuel_preserves (fuel : nat) :
  forall flags st r,
    F flags ->
    check_type_string_fuel dm fuel flags st = Some r ->
    R (fst r) st (snd r).
Proof.
  induction fuel as [| fuel IH]; intros flags st r HF H;
    [discriminate |].
  pose proof (F_passes _ _ _ _
                (pass_allow_maybe Fn_check_type_string Fn_check_type_string
                   flags) HF) as HFm.
  pose proof (F_passes _ _ _ _ (pass_element flags) HF) as HFe.
  simpl in H.
  destruct (type_case (cur st));
    descend H IH IH basic_type_preserves.
Qed.

Lemma check_format_string_fuel_preserves (fuel : nat) :
  forall flags st r,
    F flags ->
    check_format_string_fuel dm fuel flags st = Some r ->
    R (fst r) st (snd r).
Proof.
  induction fuel as [| fuel IH]; intros flags st r HF H;
    [discriminate |].
  pose proof (F_passes _ _ _ _
                (pass_allow_maybe Fn_check_format_string
                   Fn_check_format_string flags) HF) as HFm.
  pose proof (F_passes _ _ _ _
                (pass_force_gvariant Fn_check_format_string
                   Fn_check_type_string flags) HF) as HFg.
  pose proof (F_passes _ _ _ _
                (pass_require_const Fn_check_format_string
                   Fn_check_type_string flags) HF) as HFc.
  cbn [check_format_string_fuel call] in H.
  destruct (format_case (cur st));
    descend H IH (check_type_string_fuel_preserves (S fuel))
            basic_format_preserves.
Qed.

Lemma check_type_string_preserves (flags : Z) (st : CheckState) :
  F flags ->
  let r := _check_type_string dm flags st in R (fst r) st (snd r).
Proof.
  intros HF. apply (check_type_string_fuel_preserves (enough_fuel st) flags);
    [assumption |].
  apply check_type_string_returns. unfold enough_fuel. lia.
Qed.

Lemma check_format_string_preserves (flags : Z) (st : CheckState) :
  F flags ->
  let r := _check_format_string dm flags st in R (fst r) st (snd r).
Proof.
  intros HF. apply (check_format_string_fuel_preserves (enough_fuel st) flags);
    [assumption |].
  apply check_format_string_returns. unfold enough_fuel. lia.
Qed.

End Invariant.

(** ** Three instances *)

Section Instances.

Variable dm : DataModel.

Lemma not_consuming_passes (from : Fn) (flags : Z) (to : Fn) (flags' : Z) :
  passes from flags to flags' -> not_consuming flags -> not_consuming flags'.
Proof.
  unfold not_consuming. intros [] H; try assumption;
    rewrite ?has_flag_clear_consume, ?has_flag_lor by single_flag;
    rewrite ?H; reflexivity.
Qed.


Lemma check_format_string_not_consuming (flags : Z) (st : CheckState) :
  not_consuming flags ->
  args_begin (snd (_check_format_string dm flags st)) = args_begin st.
Proof.
  intros H.
  apply (check_format_string_preserves dm not_consuming same_args);
    unfold same_args; try solve [reflexivity | congruence | assumption].
  - apply not_consuming_passes.
  - intros T f s Hf. cbv zeta. now rewrite consume_not_consuming.
Qed.

Lemma consume_quiet_success (expected_type : QualType) (flags : Z)
  (st : CheckState) :
  let r := _consume_variadic_argument dm expected_type flags st in
  quiet_success (fst r) st (snd r).
Proof.
  cbv zeta. intros Hb.
  destruct (consume_effect dm expected_type flags st)
    as (_ & _ & H).
  now rewrite Hb in H.
Qed.

Lemma check_format_string_quiet_success (flags : Z) (st : CheckState) :
  fst (_check_format_string dm flags st) = true ->
  diags (snd (_check_format_string dm flags st)) = diags st.
Proof.
  apply (check_format_string_preserves dm (fun _ => True) quiet_success);
    unfold quiet_success; try solve [reflexivity | discriminate | trivial].
  - intros b st1 st2 st3 H12 H23 Hb. rewrite H23, H12; auto.
  - intros T f s _. apply consume_quiet_success.
Qed.

Lemma logs_nothing (P : Call -> Prop) (b : bool) (st st' : CheckState) :
  calls st' = calls st -> logs P b st st'.
Proof. intros H. exists []. now rewrite app_nil_r. Qed.

Lemma logs_trans (P : Call -> Prop) (b : bool) (st1 st2 st3 : CheckState) :
  logs P true st1 st2 -> logs P b st2 st3 -> logs P b st1 st3.
Proof.
  intros (n1 & H1 & HP1) (n2 & H2 & HP2).
  exists (n1 ++ n2)%list. rewrite H2, H1, app_assoc. split; [reflexivity |].
  apply Forall_app. now split.
Qed.

Lemma logs_consume (P : Call -> Prop) (expected_type : QualType) (flags : Z)
  (st : CheckState) :
  let r := _consume_variadic_argument dm expected_type flags st in
  logs P (fst r) st (snd r).
Proof.
  cbv zeta. apply logs_nothing. apply consume_frame.
Qed.

Lemma logs_calling (from : Fn) (flags : Z) (to : Fn) (flags' : Z)
  (st : CheckState) :
  passes from flags to flags' ->
  logs well_passed true st (calling from flags to flags' st).
Proof.
  intros Hp. eexists. split; [reflexivity |].
  constructor; [exact Hp | constructor].
Qed.

Ltac logging :=
  first [ now trivial
        | apply logs_trans
        | now (intros; apply logs_nothing)
        | now (intros; apply logs_calling)
        | now (intros; apply logs_consume) ].

Lemma basic_type_logs (flags : Z) (st : CheckState) :
  let r := _check_basic_type_string dm flags st in
  logs well_passed (fst r) st (snd r).
Proof.
  apply (basic_type_preserves dm (fun _ => True) (logs well_passed));
    logging.
Qed.

Lemma basic_format_logs (flags : Z) (st : CheckState) :
  let r := _check_basic_format_string dm flags st in
  logs well_passed (fst r) st (snd r).
Proof.
  apply (basic_format_preserves dm (fun _ => True) (logs well_passed));
    logging.
Qed.

Lemma check_type_string_logs (flags : Z) (st : CheckState) :
  let r := _check_type_string dm flags st in
  logs well_passed (fst r) st (snd r).
Proof.
  apply (check_type_string_preserves dm (fun _ => True) (logs well_passed));
    logging.
Qed.

Lemma check_format_string_logs (flags : Z) (st : CheckState) :
  let r := _check_format_string dm flags st in
  logs well_passed (fst r) st (snd r).
Proof.
  apply (check_format_string_preserves dm (fun _ => True) (logs well_passed));
    logging.
Qed.

End Instances.

(** ** Flags on the way down *)

Lemma well_passed_handed_down (c : Call) :
  well_passed c -> flags_handed_down c.
Proof.
  destruct c as [from f to f']. unfold well_passed, flags_handed_down. simpl.
  intros Hp. inversion Hp; subst; split;
    try (intros flag Hflag Hne Hset);
    try (intros Hset Hclear);
    rewrite ?has_flag_clear_consume, ?has_flag_lor in * by single_flag;
    rewrite ?Hset in *; simpl in *;
    try congruence; auto.
  apply Z.eqb_neq in Hne. now rewrite Hne.
Qed.

Lemma logs_hands_flags_down
  (parser : Z -> CheckState -> bool * CheckState) :
  (forall flags st,
      logs well_passed (fst (parser flags st)) st (snd (parser flags st))) ->
  hands_flags_down parser.
Proof.
  intros H flags st. destruct (H flags st) as (new & Hnew & Hall).
  exists new. split; [exact Hnew |].
  eapply Forall_impl; [| exact Hall]. apply well_passed_handed_down.
Qed.

(** C9: in every call that the format-string parser, the type-string
    parser and the two basic parsers make, to one another or to the
    consumer, the flags passed contain every flag the caller was entered
    with, except that consumeArguments may be missing, and then only where
    the type-string parser calls itself (the element type of an array).
    Flags are arguments, never results: no parser returns or stores them, so
    what a callee does to its flags cannot reach its caller. *)
Theorem flags_only_grow_down_the_calls :
  forall dm : DataModel,
    hands_flags_down (_check_format_string dm) /\
    hands_flags_down (_check_type_string dm) /\
    hands_flags_down (_check_basic_format_string dm) /\
    hands_flags_down (_check_basic_type_string dm).
Proof.
  intros dm. repeat split; apply logs_hands_flags_down; intros flags st.
  - apply check_format_string_logs.
  - apply check_type_string_logs.
  - apply basic_format_logs.
  - apply basic_type_logs.
Qed.

(** The log of checking the type string [ai] with consumeArguments set: the
    element type is parsed without it, the builder is consumed with it. *)
Example array_call_log :
  let consume := CHECK_FLAG_CONSUME_ARGS in
  let maybe := CHECK_FLAG_ALLOW_MAYBE in
  calls (snd (_check_type_string LP64 consume (mkState "ai" [] [] []))) =
  [ mkCall Fn_check_type_string consume Fn_check_type_string maybe;
    mkCall Fn_check_type_string maybe Fn_check_basic_type_string maybe;
    mkCall Fn_check_basic_type_string maybe Fn_consume_variadic_argument maybe;
    mkCall Fn_check_type_string consume Fn_consume_variadic_argument
           (Z.lor consume maybe) ].
Proof. reflexivity. Qed.

(** ** Promotion of narrow integers *)

Lemma promoted_narrow (c : ascii) (flags : Z) (t : QualType) :
  In c narrow_chars ->
  promoted_expected_type c flags t =
  if has_flag flags CHECK_FLAG_DIRECTION_OUT then t
  else getPromotedIntegerType t.
Proof.
  unfold promoted_expected_type.
  intros [<- | [<- | [<- | []]]];
    destruct (has_flag flags CHECK_FLAG_DIRECTION_OUT); reflexivity.
Qed.

Lemma promoted_not_narrow (c : ascii) (flags : Z) (t : QualType) :
  ~ In c narrow_chars -> promoted_expected_type c flags t = t.
Proof.
  unfold promoted_expected_type, narrow_chars. intros Hn.
  destruct (Ascii.eqb_spec c "y") as [-> | _]; [simpl in Hn; tauto |].
  destruct (Ascii.eqb_spec c "n") as [-> | _]; [simpl in Hn; tauto |].
  destruct (Ascii.eqb_spec c "q") as [-> | _]; [simpl in Hn; tauto |].
  now rewrite andb_false_r.
Qed.

(** C6: a basic character that resolves to a type hands the consumer that
    type, except that for [y], [n] and [q] with directionOut unset it hands
    over [int], the 32-bit signed type the narrower resolved type promotes
    to; with directionOut set these three are not promoted either. *)
Theorem narrow_integers_promote_inbound :
  forall (dm : DataModel) (flags : Z) (st : CheckState)
         (expected_type : QualType),
    basic_expected_type dm (cur st) = Some expected_type ->
    let consumed_as t :=
      _consume_variadic_argument dm t flags
        (calling Fn_check_basic_type_string flags
                 Fn_consume_variadic_argument flags (skip 1 st)) in
    (In (cur st) narrow_chars ->
     getTypeSize dm expected_type < getTypeSize dm IntTy /\
     isSignedIntegerType IntTy = true /\ getTypeSize dm IntTy = 32 /\
     _check_basic_type_string dm flags st =
     consumed_as (if has_flag flags CHECK_FLAG_DIRECTION_OUT
                  then expected_type else IntTy)) /\
    (~ In (cur st) narrow_chars ->
     _check_basic_type_string dm flags st = consumed_as expected_type).
Proof.
  intros dm flags st expected_type He. cbv zeta.
  unfold _check_basic_type_string, call. rewrite He. split.
  - intros Hin. rewrite (promoted_narrow _ _ _ Hin).
    assert (Hp : getPromotedIntegerType expected_type = IntTy /\
                 getTypeSize dm expected_type < 32).
    { destruct Hin as [Hc | [Hc | [Hc | []]]]; rewrite <- Hc in He;
        injection He as <-; destruct dm; split; reflexivity. }
    destruct Hp as [-> Hsize]. repeat split; try reflexivity.
    exact Hsize.
  - intros Hn. now rewrite (promoted_not_narrow _ _ _ Hn).
Qed.

Lemma narrow_integers_promote_inbound_witness :
  let st := mkState "q" [mkExpr IntTy false None None] [] [] in
  _check_basic_type_string LP64 CHECK_FLAG_CONSUME_ARGS st =
  _consume_variadic_argument LP64 IntTy CHECK_FLAG_CONSUME_ARGS
    (calling Fn_check_basic_type_string CHECK_FLAG_CONSUME_ARGS
             Fn_consume_variadic_argument CHECK_FLAG_CONSUME_ARGS
             (skip 1 st)).
Proof.
  exact (proj2 (proj2 (proj2 (proj1
    (narrow_integers_promote_inbound LP64 CHECK_FLAG_CONSUME_ARGS
       (mkState "q" [mkExpr IntTy false None None] [] [])
       (find_type_by_name LP64 "guint16") eq_refl)
    (or_intror (or_intror (or_introl eq_refl))))))).
Defined.

(** ** Arrays *)

Section Productions.

Variable dm : DataModel.

Lemma type_string_unfold (flags : Z) (st : CheckState) :
  check_type_string_fuel dm (S (len st)) flags st =
  Some (_check_type_string dm flags st).
Proof. apply check_type_string_returns. lia. Qed.

Lemma format_string_unfold (flags : Z) (st : CheckState) :
  check_format_string_fuel dm (S (len st)) flags st =
  Some (_check_format_string dm flags st).
Proof. apply check_format_string_returns. lia. Qed.

Lemma cur_skip_length (st : CheckState) (c : ascii) :
  cur st = c -> c <> zero -> len st = S (len (skip 1 st)).
Proof. intros <-. apply skip_one_length. Qed.


End Productions.



(** ** Leftover arguments *)

Lemma unconsumed_arguments_reports_each (dm : DataModel) (args : list Expr) :
  forall (retval : bool) (st : CheckState),
    let r := unconsumed_arguments dm args retval st in
    fst r = (retval && match args with [] => true | _ :: _ => false end) /\
    diags (snd r) = (diags st ++ map (leftover_diagnostic dm) args)%list /\
    args_begin (snd r) = [].
Proof.
  induction args as [| arg rest IH]; intros retval st; cbv zeta; simpl.
  - now rewrite andb_true_r, app_nil_r.
  - destruct (IH false (emit_error (leftover_diagnostic dm arg) st))
      as (H1 & H2 & H3).
    unfold leftover_diagnostic in *. rewrite H1, H2, H3. simpl.
    now rewrite andb_false_r, <- app_assoc.
Qed.

(** C8: when the format string is a literal, the callee takes no va_list,
    the parse returns true and has consumed the whole format string, the
    entry point reports the arguments left under the cursor, all of them and
    nothing else: one diagnostic each, in order, with the format string that
    reverse inference suggests for the argument's type when it suggests
    one; and it returns false exactly when an argument was left. *)
Theorem every_leftover_argument_is_reported :
  forall (dm : DataModel) (call_args : list Expr) (callee_name : string)
         (func_info : VariantFuncInfo) (format_arg : Expr) (literal : string)
         (st : CheckState),
    nth_error call_args (format_param_index func_info) = Some format_arg ->
    asStringLiteral format_arg = Some literal ->
    uses_va_list func_info = false ->
    _check_format_string dm (initial_flags func_info)
      (initial_state (c_str literal) call_args func_info) = (true, st) ->
    cur st = zero ->
    let r := _check_gvariant_format_param dm call_args callee_name func_info in
    diags (snd r) = map (leftover_diagnostic dm) (args_begin st) /\
    List.length (diags (snd r)) = List.length (args_begin st) /\
    (fst r = false <-> args_begin st <> []).
Proof.
  intros dm call_args callee_name func_info format_arg literal st
         Hfmt Hlit Hva Hparse Hend. cbv zeta.
  unfold _check_gvariant_format_param.
  rewrite Hfmt, Hlit, Hparse, Hend, Hva. simpl.
  destruct (unconsumed_arguments_reports_each dm (args_begin st) true st)
    as (Hret & Hdiags & _).
  pose proof (check_format_string_quiet_success dm (initial_flags func_info)
                (initial_state (c_str literal) call_args func_info)) as Hq.
  rewrite Hparse in Hq. simpl in Hq. specialize (Hq eq_refl).
  rewrite Hq in Hdiags. simpl in Hdiags.
  split; [exact Hdiags |]. split.
  - now rewrite Hdiags, length_map.
  - rewrite Hret. destruct (args_begin st); simpl; split;
      congruence.
Qed.

(** [g_variant_new ("s", str, n, flag)]: the string is consumed, the [int]
    and the [_Bool] left over are reported, with [i] and [b] suggested. *)
Lemma every_leftover_argument_is_reported_witness :
  let format := mkExpr char_ptr false None (Some "s") in
  let str := mkExpr char_ptr false None None in
  let n := mkExpr IntTy false None None in
  let flag := mkExpr (BuiltinType noQuals Bool) false None None in
  let r := _check_gvariant_format_param LP64 [format; str; n; flag]
             "g_variant_new" (mkFuncInfo "g_variant_new" 0 1 false true) in
  diags (snd r) =
  [UnconsumedArgument IntTy (Some "i");
   UnconsumedArgument (BuiltinType noQuals Bool) (Some "b")].
Proof.
  exact (proj1
    (every_leftover_argument_is_reported LP64
       [mkExpr char_ptr false None (Some "s");
        mkExpr char_ptr false None None;
        mkExpr IntTy false None None;
        mkExpr (BuiltinType noQuals Bool) false None None]
       "g_variant_new" (mkFuncInfo "g_variant_new" 0 1 false true)
       _ "s" _ eq_refl eq_refl eq_refl eq_refl eq_refl)).
Defined.

(** ** Dict entries *)

Section Dict.

Variable dm : DataModel.

Lemma check_type_string_dict (flags : Z) (st : CheckState) :
  cur st = "{"%char ->
  _check_type_string dm flags st =
  dict_entry TypeString (_check_basic_type_string dm) (_check_type_string dm)
    Fn_check_type_string Fn_check_basic_type_string flags st.
Proof.
  intros Hc. unfold dict_entry.
  pose proof (type_string_unfold dm flags st) as H.
  assert (Hl : len st = S (len (skip 1 st)))
    by (apply (cur_skip_length st "{"); [assumption | discriminate]).
  simpl in H. rewrite Hc in H. simpl in H.
  destruct (Ascii.eqb (cur (skip 1 st)) "}"); [now injection H as <- |].
  match goal with
  | |- context [_check_basic_type_string dm ?f ?s] =>
      destruct (basic_type_progress dm f s) as [_ Hk];
      destruct (_check_basic_type_string dm f s) as [[] st1]
  end; [| now injection H as <-].
  specialize (Hk eq_refl). simpl in Hk.
  destruct (Ascii.eqb (cur st1) "}"); [now injection H as <- |].
  rewrite check_type_string_returns in H by (simpl in *; lia).
  destruct (_check_type_string dm flags _) as [[] st2];
    [| now injection H as <-].
  destruct (Ascii.eqb (cur st2) zero); [now injection H as <- |].
  destruct (negb (Ascii.eqb (cur st2) "}")); now injection H as <-.
Qed.

Lemma check_format_string_dict (flags : Z) (st : CheckState) :
  cur st = "{"%char ->
  _check_format_string dm flags st =
  dict_entry FormatString (_check_basic_format_string dm)
    (_check_format_string dm)
    Fn_check_format_string Fn_check_basic_format_string flags st.
Proof.
  intros Hc. unfold dict_entry.
  pose proof (format_string_unfold dm flags st) as H.
  assert (Hl : len st = S (len (skip 1 st)))
    by (apply (cur_skip_length st "{"); [assumption | discriminate]).
  cbn [check_format_string_fuel call] in H. rewrite Hc in H.
  cbn [format_case] in H. cbv iota in H.
  destruct (Ascii.eqb (cur (skip 1 st)) "}"); [now injection H as <- |].
  match goal with
  | |- context [_check_basic_format_string dm ?f ?s] =>
      destruct (basic_format_progress dm f s) as [_ Hk];
      destruct (_check_basic_format_string dm f s) as [[] st1]
  end; [| now injection H as <-].
  specialize (Hk eq_refl). simpl in Hk.
  destruct (Ascii.eqb (cur st1) "}"); [now injection H as <- |].
  rewrite check_format_string_returns in H by (simpl in *; lia).
  destruct (_check_format_string dm flags _) as [[] st2];
    [| now injection H as <-].
  destruct (Ascii.eqb (cur st2) zero); [now injection H as <- |].
  destruct (negb (Ascii.eqb (cur st2) "}")); now injection H as <-.
Qed.

End Dict.

Lemma dict_entry_has_outcomes (g : Grammar)
  (parse key : Z -> CheckState -> bool * CheckState) (self key_fn : Fn) :
  (forall flags st, cur st = "{"%char ->
                    parse flags st = dict_entry g key parse self key_fn flags st) ->
  dict_entry_outcomes g parse key self key_fn.
Proof.
  intros Heq flags st Hc. cbv zeta. rewrite (Heq flags st Hc).
  unfold dict_entry.
  destruct (Ascii.eqb_spec (cur (skip 1 st)) "}") as [H0 | H0].
  { repeat split; try tauto; try (intros; discriminate). }
  destruct (key flags _) as [[] st1]; simpl.
  2:{ repeat split; try tauto; try discriminate; try reflexivity. }
  destruct (Ascii.eqb_spec (cur st1) "}") as [H1 | H1].
  { repeat split; try tauto; try discriminate. }
  destruct (parse flags _) as [[] st2]; simpl.
  2:{ repeat split; try tauto; try discriminate; try reflexivity. }
  destruct (Ascii.eqb_spec (cur st2) "}") as [H2 | H2]; simpl.
  - rewrite H2. simpl. repeat split; try tauto; try discriminate.
  - destruct (Ascii.eqb_spec (cur st2) zero) as [Hz | Hz]; simpl;
      repeat split; try tauto; try discriminate.
Qed.

Section Leaves.

Variable dm : DataModel.

(** Characters neither grammar knows fall through to the basic parsers. *)
Lemma check_type_string_default (flags : Z) (st : CheckState) :
  type_case (cur st) = Type_default ->
  _check_type_string dm flags st =
  _check_basic_type_string dm flags
    (calling Fn_check_type_string flags Fn_check_basic_type_string flags st).
Proof.
  intros Hc. pose proof (type_string_unfold dm flags st) as H.
  simpl in H. rewrite Hc in H. now injection H as <-.
Qed.

Lemma check_format_string_default (flags : Z) (st : CheckState) :
  format_case (cur st) = Format_default ->
  _check_format_string dm flags st =
  _check_type_string dm flags
    (calling Fn_check_format_string flags Fn_check_type_string flags st).
Proof.
  intros Hc. pose proof (format_string_unfold dm flags st) as H.
  cbn [check_format_string_fuel call] in H. rewrite Hc in H.
  rewrite check_type_string_returns in H by (simpl; lia).
  now injection H as <-.
Qed.

Lemma check_basic_format_string_default (flags : Z) (st : CheckState) :
  basic_format_case (cur st) = BasicFormat_default ->
  _check_basic_format_string dm flags st =
  _check_basic_type_string dm flags
    (calling Fn_check_basic_format_string flags Fn_check_basic_type_string
             flags st).
Proof. intros Hc. unfold _check_basic_format_string, call. now rewrite Hc. Qed.

(** [v] is a variant in the type-string grammar. *)
Lemma check_type_string_v (flags : Z) (st : CheckState) :
  cur st = "v"%char ->
  _check_type_string dm flags st =
  _consume_variadic_argument dm (find_pointer_type_by_name dm "GVariant")
    flags
    (calling Fn_check_type_string flags Fn_consume_variadic_argument flags
             (skip 1 st)).
Proof.
  intros Hc. pose proof (type_string_unfold dm flags st) as H.
  simpl in H. rewrite Hc in H. now injection H as <-.
Qed.

(** A basic parser that returns true has moved the format cursor by one
    character. *)
Lemma basic_type_moves_one (flags : Z) (st st' : CheckState) :
  _check_basic_type_string dm flags st = (true, st') ->
  format_str st' = advance 1 (format_str st).
Proof.
  unfold _check_basic_type_string, call.
  destruct (basic_expected_type dm (cur st)); [| discriminate].
  intros H.
  match type of H with
  | context [_consume_variadic_argument dm ?T ?f ?s] =>
      destruct (consume_frame dm T f s) as [Hf _]
  end.
  rewrite H in Hf. exact Hf.
Qed.

Lemma consume_keeps_format (expected_type : QualType) (flags : Z)
  (st : CheckState) (b : bool) (st' : CheckState) :
  _consume_variadic_argument dm expected_type flags st = (b, st') ->
  format_str st' = format_str st.
Proof.
  intros H. destruct (consume_frame dm expected_type flags st) as [Hf _].
  now rewrite H in Hf.
Qed.

(** With consumeArguments unset a basic type character is just skipped. *)
Lemma basic_type_not_consuming (flags : Z) (st : CheckState) (t : QualType) :
  has_flag flags CHECK_FLAG_CONSUME_ARGS = false ->
  basic_expected_type dm (cur st) = Some t ->
  _check_basic_type_string dm flags st =
  (true,
   calling Fn_check_basic_type_string flags Fn_consume_variadic_argument flags
           (skip 1 st)).
Proof.
  intros Hn Ht. unfold _check_basic_type_string, call. rewrite Ht.
  now apply consume_not_consuming.
Qed.

End Leaves.

Ltac known_cursor :=
  unfold cur; simpl;
  repeat match goal with
         | H : format_str _ = _ |- _ => rewrite H
         end;
  simpl.

Lemma malformed_entries_fail_type (dm : DataModel) (flags : Z)
  (entry rest : string) (args : list Expr) (ds : list Diagnostic)
  (cs : list Call) :
  In entry malformed_dict_entries ->
  fst (_check_type_string dm flags (mkState (entry ++ rest) args ds cs))
  = false.
Proof.
  intros [<- | [<- | [<- | []]]];
    rewrite check_type_string_dict by reflexivity;
    unfold dict_entry; simpl; try reflexivity;
    (match goal with
     | |- context [_check_basic_type_string dm ?f ?s] =>
         destruct (_check_basic_type_string dm f s) as [[] st1] eqn:Ek;
         [apply basic_type_moves_one in Ek; simpl in Ek | reflexivity]
     end);
    known_cursor; try reflexivity.
  rewrite check_type_string_v by (known_cursor; reflexivity).
  match goal with
  | |- context [_consume_variadic_argument dm ?T ?f ?s] =>
      destruct (_consume_variadic_argument dm T f s) as [[] st2] eqn:Ev;
      [apply consume_keeps_format in Ev; simpl in Ev | reflexivity]
  end.
  rewrite Ek in Ev. known_cursor. reflexivity.
Qed.

Lemma malformed_entries_fail_format (dm : DataModel) (flags : Z)
  (entry rest : string) (args : list Expr) (ds : list Diagnostic)
  (cs : list Call) :
  In entry malformed_dict_entries ->
  fst (_check_format_string dm flags (mkState (entry ++ rest) args ds cs))
  = false.
Proof.
  intros [<- | [<- | [<- | []]]];
    rewrite check_format_string_dict by reflexivity;
    unfold dict_entry; simpl; try reflexivity;
    rewrite check_basic_format_string_default by reflexivity;
    (match goal with
     | |- context [_check_basic_type_string dm ?f ?s] =>
         destruct (_check_basic_type_string dm f s) as [[] st1] eqn:Ek;
         [apply basic_type_moves_one in Ek; simpl in Ek | reflexivity]
     end);
    known_cursor; try reflexivity.
  rewrite check_format_string_default by (known_cursor; reflexivity).
  rewrite check_type_string_v by (known_cursor; reflexivity).
  match goal with
  | |- context [_consume_variadic_argument dm ?T ?f ?s] =>
      destruct (_consume_variadic_argument dm T f s) as [[] st2] eqn:Ev;
      [apply consume_keeps_format in Ev; simpl in Ev | reflexivity]
  end.
  rewrite Ek in Ev. known_cursor. reflexivity.
Qed.

Lemma malformed_entries_diagnosed_type (dm : DataModel) (flags : Z)
  (entry rest : string) (args : list Expr) (ds : list Diagnostic)
  (cs : list Call) :
  In entry malformed_dict_entries ->
  has_flag flags CHECK_FLAG_CONSUME_ARGS = false ->
  exists d,
    is_MalformedDictEntry d = true /\
    diags (snd (_check_type_string dm flags
                  (mkState (entry ++ rest) args ds cs))) = (ds ++ [d])%list.
Proof.
  intros [<- | [<- | [<- | []]]] Hn;
    rewrite check_type_string_dict by reflexivity;
    unfold dict_entry; simpl;
    try (erewrite basic_type_not_consuming by (assumption || reflexivity);
         simpl);
    try (rewrite check_type_string_v by reflexivity;
         rewrite consume_not_consuming by assumption; simpl);
    (eexists; split; [| reflexivity]; reflexivity).
Qed.

Lemma malformed_entries_diagnosed_format (dm : DataModel) (flags : Z)
  (entry rest : string) (args : list Expr) (ds : list Diagnostic)
  (cs : list Call) :
  In entry malformed_dict_entries ->
  has_flag flags CHECK_FLAG_CONSUME_ARGS = false ->
  exists d,
    is_MalformedDictEntry d = true /\
    diags (snd (_check_format_string dm flags
                  (mkState (entry ++ rest) args ds cs))) = (ds ++ [d])%list.
Proof.
  intros [<- | [<- | [<- | []]]] Hn;
    rewrite check_format_string_dict by reflexivity;
    unfold dict_entry; simpl;
    try (rewrite check_basic_format_string_default by reflexivity;
         erewrite basic_type_not_consuming by (assumption || reflexivity);
         simpl);
    try (rewrite check_format_string_default by reflexivity;
         rewrite check_type_string_v by reflexivity;
         rewrite consume_not_consuming by assumption; simpl);
    (eexists; split; [| reflexivity]; reflexivity).
Qed.

(** C5, as stated, fails: with consumeArguments set and no argument for the
    key, [{s}] fails in both grammars, and in the call
    [g_variant_new ("{s}")], with the diagnostic MissingArgument, which is
    not of the MalformedDictEntry class. *)
Lemma one_member_dict_can_fail_otherwise :
  let st := mkState "{s}" [] [] [] in
  let format := mkExpr char_ptr false None (Some "{s}") in
  let missing := MissingArgument char_ptr in
  is_MalformedDictEntry missing = false /\
  _check_type_string LP64 CHECK_FLAG_CONSUME_ARGS st =
  (false,
   mkState "}" [] [missing]
     [mkCall Fn_check_type_string CHECK_FLAG_CONSUME_ARGS
             Fn_check_basic_type_string CHECK_FLAG_CONSUME_ARGS;
      mkCall Fn_check_basic_type_string CHECK_FLAG_CONSUME_ARGS
             Fn_consume_variadic_argument CHECK_FLAG_CONSUME_ARGS]) /\
  diags (snd (_check_format_string LP64 CHECK_FLAG_CONSUME_ARGS st))
  = [missing] /\
  diags (snd (_check_gvariant_format_param LP64 [format] "g_variant_new"
                (mkFuncInfo "g_variant_new" 0 1 false true)))
  = [missing].
Proof. repeat split; reflexivity. Qed.

(** C5, amended: in both grammars a dict entry parses only with exactly
    two members before the closing brace.  With none, with one, or with a
    third, the parse returns false, whatever the flags, the arguments and
    the text after the entry; the diagnostic is of the MalformedDictEntry
    class when the members before the offending position were accepted (so
    always for no member, and for any arguments when consumeArguments is
    unset), and otherwise it is the diagnostic of the first member that was
    not.  This holds of the spec's examples [{}], [{s}] and [{svs}]. *)
Theorem dict_entry_needs_two_members :
  forall dm : DataModel,
    dict_entry_outcomes TypeString
      (_check_type_string dm) (_check_basic_type_string dm)
      Fn_check_type_string Fn_check_basic_type_string /\
    dict_entry_outcomes FormatString
      (_check_format_string dm) (_check_basic_format_string dm)
      Fn_check_format_string Fn_check_basic_format_string /\
    (forall (flags : Z) (entry rest : string) (args : list Expr)
            (ds : list Diagnostic) (cs : list Call),
        In entry malformed_dict_entries ->
        let st := mkState (entry ++ rest) args ds cs in
        let as_type := _check_type_string dm flags st in
        let as_format := _check_format_string dm flags st in
        fst as_type = false /\ fst as_format = false /\
        (has_flag flags CHECK_FLAG_CONSUME_ARGS = false ->
         exists d d',
           is_MalformedDictEntry d = true /\
           is_MalformedDictEntry d' = true /\
           diags (snd as_type) = (ds ++ [d])%list /\
           diags (snd as_format) = (ds ++ [d'])%list)).
Proof.
  intros dm. split; [| split].
  - apply dict_entry_has_outcomes, check_type_string_dict.
  - apply dict_entry_has_outcomes, check_format_string_dict.
  - intros flags entry rest args ds cs Hin. cbv zeta.
    split; [now apply malformed_entries_fail_type |].
    split; [now apply malformed_entries_fail_format |].
    intros Hn.
    destruct (malformed_entries_diagnosed_type dm flags entry rest args ds cs
                Hin Hn) as (d & Hd & Ht).
    destruct (malformed_entries_diagnosed_format dm flags entry rest args ds
                cs Hin Hn) as (d' & Hd' & Hf).
    now exists d, d'.
Qed.

(** [{svs}] inside a tuple, arguments in place: the third member is what is
    reported. *)
Lemma dict_entry_needs_two_members_witness :
  let str := mkExpr char_ptr false None None in
  let variant :=
    mkExpr (find_pointer_type_by_name LP64 "GVariant") false None None in
  let st := mkState "{svs})" [str; variant; str] [] [] in
  _check_format_string LP64 CHECK_FLAG_CONSUME_ARGS st =
  (false,
   emit_error (DictTooManyElements FormatString)
     (snd (_check_format_string LP64 CHECK_FLAG_CONSUME_ARGS
             (calling Fn_check_format_string CHECK_FLAG_CONSUME_ARGS
                Fn_check_format_string CHECK_FLAG_CONSUME_ARGS
                (snd (_check_basic_format_string LP64 CHECK_FLAG_CONSUME_ARGS
                        (calling Fn_check_format_string
                           CHECK_FLAG_CONSUME_ARGS
                           Fn_check_basic_format_string
                           CHECK_FLAG_CONSUME_ARGS (skip 1 st)))))))).
Proof.
  refine (proj1 (proj2 (proj2
    (proj1 (proj2 (dict_entry_needs_two_members LP64))
       CHECK_FLAG_CONSUME_ARGS
       (mkState "{svs})"
          [mkExpr char_ptr false None None;
           mkExpr (find_pointer_type_by_name LP64 "GVariant") false None None;
           mkExpr char_ptr false None None] [] [])
       eq_refl))) _ eq_refl _ eq_refl _ _);
    vm_compute; congruence.
Defined.

(** ** Reverse inference, fed back *)

Lemma basic_expected_type_chars (dm : DataModel) (c : ascii) (t : QualType) :
  basic_expected_type dm c = Some t -> In c basic_chars.
Proof.
  destruct c as [[] [] [] [] [] [] [] []]; simpl; intros H;
    try discriminate H;
    repeat (first [left; reflexivity | right]).
Qed.

(** C4: take a basic character, the type it resolves to, and an argument
    of that type as it reaches a variadic call, that is, after the default
    argument promotions.  If reverse inference suggests a format string for
    the resolved type, then checking the suggestion as the whole format
    string of an inbound, argument-consuming call against that one argument
    (a null-pointer constant only if its type admits one) returns true with
    no diagnostic, the format string and the argument both consumed. *)
Theorem reverse_inference_round_trip :
  forall (dm : DataModel) (c : ascii) (resolved : QualType)
         (suggestion : string) (arg : Expr),
    basic_expected_type dm c = Some resolved ->
    _gvariant_format_string_for_type dm resolved = Some suggestion ->
    getType arg = DefaultArgumentPromotion resolved ->
    null_constant_well_typed arg = true ->
    let r := check_one_argument dm suggestion arg in
    fst r = true /\ diags (snd r) = [] /\
    format_str (snd r) = "" /\ args_begin (snd r) = [].
Proof.
  intros dm c resolved suggestion [ty npc ic lit] Hc. cbv zeta. simpl.
  intros Hs -> Hwf.
  pose proof (basic_expected_type_chars dm c resolved Hc) as Hin.
  unfold basic_chars in Hin. simpl in Hin.
  repeat (destruct Hin as [<- | Hin]); try contradiction;
    injection Hc as <-;
    destruct dm; vm_compute in Hs; try discriminate Hs;
    injection Hs as <-;
    destruct npc; try discriminate Hwf;
    destruct ic as [[| p | p] |];
    vm_compute; repeat split.
Qed.

(** The 8-bit [y]: it resolves to [unsigned char], for which [y] is
    suggested; a value of that type reaches the call as an [int], and
    [g_variant_new ("y", n)] checks clean. *)
Lemma reverse_inference_round_trip_witness :
  let r := check_one_argument LP64 "y" (mkExpr IntTy false None None) in
  fst r = true /\ diags (snd r) = [] /\
  format_str (snd r) = "" /\ args_begin (snd r) = [].
Proof.
  exact (reverse_inference_round_trip LP64 "y" UnsignedCharTy "y"
           (mkExpr IntTy false None None)
           eq_refl eq_refl eq_refl eq_refl).
Defined.

(* ================================================================== *)
(** * Further properties of the checker *)
(* ================================================================== *)

(** ** The function table *)

Lemma table_names_start_with_g (name : string) :
  _func_uses_gvariant_format name =
  find (fun info => String.eqb name (func_name info)) gvariant_format_funcs.
Proof.
  destruct name as [| c s]; [reflexivity |].
  destruct c as [[] [] [] [] [] [] [] []]; reflexivity.
Qed.

Lemma lookup_found (name : string) (info : VariantFuncInfo) :
  _func_uses_gvariant_format name = Some info ->
  func_name info = name /\ In info gvariant_format_funcs /\
  (format_param_index info < first_vararg_param_index info)%nat.
Proof.
  intros H. rewrite table_names_start_with_g in H.
  apply find_some in H. destruct H as [Hin Heq].
  apply String.eqb_eq in Heq. split; [congruence |]. split; [exact Hin |].
  simpl in Hin.
  repeat (destruct Hin as [<- | Hin]; [simpl; lia |]). contradiction.
Qed.

(** X1: the lookup of a callee in the function table is an exact match of
    the name against the table: the fast path on the first letter changes
    no result.  An entry found carries the name asked for, is one of the
    table's, and places the first variadic argument after the format
    string. *)
Theorem func_lookup_matches_the_name :
  forall name : string,
    _func_uses_gvariant_format name =
    find (fun info => String.eqb name (func_name info))
         gvariant_format_funcs /\
    (forall info,
        _func_uses_gvariant_format name = Some info ->
        func_name info = name /\ In info gvariant_format_funcs /\
        (format_param_index info < first_vararg_param_index info)%nat) /\
    (forall info,
        In info gvariant_format_funcs ->
        _func_uses_gvariant_format (func_name info) = Some info).
Proof.
  intros name. split; [apply table_names_start_with_g |]. split.
  - intros info H. now apply lookup_found.
  - intros info Hin. simpl in Hin.
    repeat (destruct Hin as [<- | Hin]; [reflexivity |]). contradiction.
Qed.

(** X2: visiting a call never stops the traversal, and it reports
    something only for a direct call of a function named in the table. *)
Theorem only_table_functions_are_checked :
  forall (dm : DataModel) (direct_callee : option string)
         (call_args : list Expr),
    let r := VisitCallExpr dm direct_callee call_args in
    fst r = true /\
    (snd r <> [] ->
     exists name info,
       direct_callee = Some name /\ In info gvariant_format_funcs /\
       func_name info = name /\
       snd r = diags (snd (_check_gvariant_format_param dm call_args name
                             info))).
Proof.
  intros dm [name |] call_args; cbv zeta; unfold VisitCallExpr;
    [| split; [reflexivity | intros H; now elim H]].
  destruct (_func_uses_gvariant_format name) as [info |] eqn:E;
    [| split; [reflexivity | intros H; now elim H]].
  split; [reflexivity |]. intros _.
  destruct (lookup_found name info E) as (Hn & Hin & _).
  now exists name, info.
Qed.

(** ** Termination *)

(** X3: the recursive descent nests no deeper than the format string is
    long: run with any fuel above the length of what is left of the
    string, either parser returns, and what it returns does not depend on
    the fuel. *)
Theorem parsers_return_within_the_length :
  forall (dm : DataModel) (fuel : nat) (flags : Z) (st : CheckState),
    (len st < fuel)%nat ->
    check_format_string_fuel dm fuel flags st =
    Some (_check_format_string dm flags st) /\
    check_type_string_fuel dm fuel flags st =
    Some (_check_type_string dm flags st).
Proof.
  intros dm fuel flags st H. split.
  - now apply check_format_string_returns.
  - now apply check_type_string_returns.
Qed.

Lemma parsers_return_within_the_length_witness :
  let st := mkState "a{s(iv)}" [] [] [] in
  check_format_string_fuel LP64 9 CHECK_FLAG_NONE st =
  Some (_check_format_string LP64 CHECK_FLAG_NONE st) /\
  check_type_string_fuel LP64 9 CHECK_FLAG_NONE st =
  Some (_check_type_string LP64 CHECK_FLAG_NONE st).
Proof.
  exact (parsers_return_within_the_length LP64 9 CHECK_FLAG_NONE
           (mkState "a{s(iv)}" [] [] []) ltac:(simpl; lia)).
Defined.

(** ** The cursors only move forward *)

Lemma advance_empty (n : nat) : advance n "" = ""%string.
Proof. now destruct n. Qed.

Lemma advance_advance (n m : nat) (s : string) :
  advance m (advance n s) = advance (n + m) s.
Proof.
  revert s. induction n as [| n IH]; intros s; [reflexivity |].
  destruct s as [| c s]; simpl; [apply advance_empty | apply IH].
Qed.

Lemma moved_forward_refl (st st' : CheckState) :
  format_str st' = format_str st -> args_begin st' = args_begin st ->
  moved_forward st st'.
Proof.
  intros Hf Ha. split; [now exists 0%nat | exists []; now rewrite Ha].
Qed.

Lemma moved_forward_trans (st1 st2 st3 : CheckState) :
  moved_forward st1 st2 -> moved_forward st2 st3 -> moved_forward st1 st3.
Proof.
  intros [[n1 Hf1] [c1 Ha1]] [[n2 Hf2] [c2 Ha2]]. split.
  - exists (n1 + n2)%nat. now rewrite Hf2, Hf1, advance_advance.
  - exists (c1 ++ c2)%list. now rewrite Ha1, Ha2, app_assoc.
Qed.

Lemma moved_forward_skip (n : nat) (st : CheckState) :
  moved_forward st (skip n st).
Proof. split; [now exists n | now exists []]. Qed.

Lemma moved_forward_consume (dm : DataModel) (expected_type : QualType)
  (flags : Z) (st : CheckState) :
  moved_forward st
    (snd (_consume_variadic_argument dm expected_type flags st)).
Proof.
  destruct (consume_effect dm expected_type flags st) as (Hf & Ha & _).
  split; [exists 0%nat; exact Hf |].
  destruct (fst _ && _).
  - destruct Ha as [arg Ha]. exists [arg]. now rewrite Ha.
  - exists []. now rewrite Ha.
Qed.

Ltac forward :=
  first [ now trivial
        | now (intros; apply moved_forward_refl)
        | now (intros; eapply moved_forward_trans; eassumption)
        | now (intros; apply moved_forward_skip)
        | now (intros; apply moved_forward_consume) ].

Lemma check_format_string_fuel_forward (dm : DataModel) (fuel : nat)
  (flags : Z) (st : CheckState) (r : bool * CheckState) :
  check_format_string_fuel dm fuel flags st = Some r ->
  moved_forward st (snd r).
Proof.
  apply (check_format_string_fuel_preserves dm (fun _ => True)
           (fun _ => moved_forward)); forward.
Qed.

Lemma check_type_string_fuel_forward (dm : DataModel) (fuel : nat)
  (flags : Z) (st : CheckState) (r : bool * CheckState) :
  check_type_string_fuel dm fuel flags st = Some r ->
  moved_forward st (snd r).
Proof.
  apply (check_type_string_fuel_preserves dm (fun _ => True)
           (fun _ => moved_forward)); forward.
Qed.

Lemma basic_format_forward (dm : DataModel) (flags : Z) (st : CheckState) :
  moved_forward st (snd (_check_basic_format_string dm flags st)).
Proof.
  apply (basic_format_preserves dm (fun _ => True)
           (fun _ => moved_forward)); forward.
Qed.

Lemma basic_type_forward (dm : DataModel) (flags : Z) (st : CheckState) :
  moved_forward st (snd (_check_basic_type_string dm flags st)).
Proof.
  apply (basic_type_preserves dm (fun _ => True)
           (fun _ => moved_forward)); forward.
Qed.

Lemma check_format_string_forward (dm : DataModel) (flags : Z)
  (st : CheckState) :
  moved_forward st (snd (_check_format_string dm flags st)).
Proof.
  apply (check_format_string_fuel_forward dm (S (len st)) flags).
  apply format_string_unfold.
Qed.

Lemma check_type_string_forward (dm : DataModel) (flags : Z)
  (st : CheckState) :
  moved_forward st (snd (_check_type_string dm flags st)).
Proof.
  apply (check_type_string_fuel_forward dm (S (len st)) flags).
  apply type_string_unfold.
Qed.

(** X4: neither cursor is ever moved back.  Whatever a parser returns, the
    format string it leaves is the one it was given less some leading
    characters, and the arguments it leaves are the ones it was given less
    some leading arguments; if it returns true, at least one character has
    been read. *)
Theorem cursors_only_move_forward :
  forall (dm : DataModel) (flags : Z) (st : CheckState),
    let f := _check_format_string dm flags st in
    let t := _check_type_string dm flags st in
    moved_forward st (snd f) /\ moved_forward st (snd t) /\
    (fst f = true -> (len (snd f) < len st)%nat) /\
    (fst t = true -> (len (snd t) < len st)%nat).
Proof.
  intros dm flags st. cbv zeta.
  split; [apply check_format_string_forward |].
  split; [apply check_type_string_forward |].
  split.
  - apply check_format_string_progress'.
  - apply check_type_string_progress'.
Qed.

(** ** One diagnostic for one failure *)

Lemma reports_once_trans (b : bool) (st1 st2 st3 : CheckState) :
  reports_once true st1 st2 -> reports_once b st2 st3 ->
  reports_once b st1 st3.
Proof.
  unfold reports_once. intros H12 H23. destruct b.
  - congruence.
  - destruct H23 as [d H23]. exists d. congruence.
Qed.

Lemma reports_once_consume (dm : DataModel) (expected_type : QualType)
  (flags : Z) (st : CheckState) :
  let r := _consume_variadic_argument dm expected_type flags st in
  reports_once (fst r) st (snd r).
Proof.
  cbv zeta. destruct (consume_effect dm expected_type flags st)
    as (_ & _ & H). exact H.
Qed.

Ltac reporting :=
  first [ now trivial
        | exact reports_once_trans
        | now (intros; unfold reports_once; simpl; eauto)
        | now (intros; apply reports_once_consume) ].

Lemma check_format_string_reports_once (dm : DataModel) (flags : Z)
  (st : CheckState) :
  let r := _check_format_string dm flags st in
  reports_once (fst r) st (snd r).
Proof.
  apply (check_format_string_preserves dm (fun _ => True) reports_once);
    reporting.
Qed.

Lemma check_type_string_reports_once (dm : DataModel) (flags : Z)
  (st : CheckState) :
  let r := _check_type_string dm flags st in
  reports_once (fst r) st (snd r).
Proof.
  apply (check_type_string_preserves dm (fun _ => True) reports_once);
    reporting.
Qed.

Lemma basic_format_reports_once (dm : DataModel) (flags : Z)
  (st : CheckState) :
  let r := _check_basic_format_string dm flags st in
  reports_once (fst r) st (snd r).
Proof.
  apply (basic_format_preserves dm (fun _ => True) reports_once);
    reporting.
Qed.

Lemma basic_type_reports_once (dm : DataModel) (flags : Z)
  (st : CheckState) :
  let r := _check_basic_type_string dm flags st in
  reports_once (fst r) st (snd r).
Proof.
  apply (basic_type_preserves dm (fun _ => True) reports_once);
    reporting.
Qed.

(** X5: the parsers stop at the first error.  A parser that returns true
    has emitted nothing; one that returns false has emitted exactly one
    diagnostic, after those that were there. *)
Theorem one_failure_one_diagnostic :
  forall (dm : DataModel) (flags : Z) (st : CheckState),
    let f := _check_format_string dm flags st in
    let t := _check_type_string dm flags st in
    let bf := _check_basic_format_string dm flags st in
    let bt := _check_basic_type_string dm flags st in
    reports_once (fst f) st (snd f) /\ reports_once (fst t) st (snd t) /\
    reports_once (fst bf) st (snd bf) /\ reports_once (fst bt) st (snd bt).
Proof.
  intros dm flags st. cbv zeta. repeat split.
  - apply check_format_string_reports_once.
  - apply check_type_string_reports_once.
  - apply basic_format_reports_once.
  - apply basic_type_reports_once.
Qed.

(** ** The verdict on a call *)

Lemma c_str_no_nul (s : string) (n : nat) :
  peek (advance n (c_str s)) = zero -> advance n (c_str s) = ""%string.
Proof.
  revert n. induction s as [| c s IH]; intros n; simpl.
  - now rewrite advance_empty.
  - destruct (Ascii.eqb_spec c zero) as [-> | Hc].
    + now rewrite advance_empty.
    + destruct n as [| n]; simpl; [intros H; now elim Hc | apply IH].
Qed.

(** The check of a call whose format string is the literal [lit]: what the
    parser returned on it, and what the two closing checks made of it. *)
Lemma check_param_literal (dm : DataModel) (call_args : list Expr)
  (callee_name : string) (func_info : VariantFuncInfo) (format_arg : Expr)
  (lit : string) :
  nth_error call_args (format_param_index func_info) = Some format_arg ->
  asStringLiteral format_arg = Some lit ->
  let st := initial_state (c_str lit) call_args func_info in
  let p := _check_format_string dm (initial_flags func_info) st in
  let r := _check_gvariant_format_param dm call_args callee_name func_info in
  reports_once (fst p) st (snd p) /\
  moved_forward st (snd p) /\
  (fst p = false -> r = p) /\
  (fst p = true -> cur (snd p) <> zero ->
   r = (false,
        emit_error (UnconsumedFormatString (format_str (snd p)) (c_str lit))
          (snd p))) /\
  (fst p = true -> cur (snd p) = zero -> uses_va_list func_info = true ->
   r = p) /\
  (fst p = true -> cur (snd p) = zero -> uses_va_list func_info = false ->
   r = unconsumed_arguments dm (args_begin (snd p)) true (snd p)).
Proof.
  intros Hn Hl. cbv zeta.
  split; [apply check_format_string_reports_once |].
  split; [apply check_format_string_forward |].
  unfold _check_gvariant_format_param. rewrite Hn, Hl.
  destruct (_check_format_string dm _ _) as [[] st1]; simpl.
  - destruct (Ascii.eqb_spec (cur st1) zero) as [Hc | Hc]; simpl;
      destruct (uses_va_list func_info); simpl;
      repeat split; intros; congruence.
  - repeat split; intros; congruence.
Qed.

(** X6: the verdict on a call and the diagnostics agree.  For a call that
    has its format argument, the check returns true exactly when it has
    emitted no diagnostic at all. *)
Theorem accepted_iff_nothing_reported :
  forall (dm : DataModel) (call_args : list Expr) (callee_name : string)
         (func_info : VariantFuncInfo) (format_arg : Expr),
    nth_error call_args (format_param_index func_info) = Some format_arg ->
    let r := _check_gvariant_format_param dm call_args callee_name
               func_info in
    fst r = true <-> diags (snd r) = [].
Proof.
  intros dm call_args callee_name func_info format_arg Hn. cbv zeta.
  destruct (asStringLiteral format_arg) as [lit |] eqn:Hl.
  2:{ unfold _check_gvariant_format_param. rewrite Hn, Hl. simpl.
      split; discriminate. }
  destruct (check_param_literal dm call_args callee_name func_info
              format_arg lit Hn Hl) as (Hd & _ & Hf & Hu & Hv & Ha).
  unfold reports_once in Hd. simpl in Hd.
  destruct (fst (_check_format_string dm _ _)) eqn:Hp.
  - destruct (Ascii.eqb_spec
                (cur (snd (_check_format_string dm (initial_flags func_info)
                             (initial_state (c_str lit) call_args
                                func_info)))) zero) as [Hc | Hc].
    + destruct (uses_va_list func_info) eqn:Hva.
      * rewrite (Hv eq_refl Hc eq_refl), Hp, Hd. tauto.
      * rewrite (Ha eq_refl Hc eq_refl).
        destruct (unconsumed_arguments_reports_each dm
                    (args_begin (snd (_check_format_string dm
                       (initial_flags func_info)
                       (initial_state (c_str lit) call_args func_info))))
                    true
                    (snd (_check_format_string dm (initial_flags func_info)
                            (initial_state (c_str lit) call_args func_info))))
          as (H1 & H2 & _).
        rewrite H1, H2, Hd. simpl.
        destruct (args_begin _); simpl; split; try discriminate; trivial.
    + rewrite (Hu eq_refl Hc). simpl. rewrite Hd. simpl.
      split; discriminate.
  - rewrite (Hf eq_refl), Hp. destruct Hd as [d ->]. simpl.
    split; discriminate.
Qed.

Lemma accepted_iff_nothing_reported_witness :
  let hello := mkExpr char_ptr false None (Some "hello"%string) in
  let format := mkExpr const_char_ptr false None (Some "(si)"%string) in
  let r := _check_gvariant_format_param LP64 [format; hello]
             "g_variant_new" g_variant_new_info in
  fst r = true <-> diags (snd r) = [].
Proof.
  exact (accepted_iff_nothing_reported LP64
           [mkExpr const_char_ptr false None (Some "(si)"%string);
            mkExpr char_ptr false None (Some "hello"%string)]
           "g_variant_new" g_variant_new_info
           (mkExpr const_char_ptr false None (Some "(si)"%string))
           eq_refl).
Defined.

(** X7: a call is accepted only when the parser has used up both the
    format string and the arguments.  If the check returns true, the format
    argument is a string literal, and the parser, run on that literal and on
    the arguments from the first variadic one, has returned true, has read
    the format string to its end and, unless the callee takes a [va_list],
    has left no argument unconsumed: the closing loop over the leftover
    arguments had none to report. *)
Theorem accepted_call_uses_everything :
  forall (dm : DataModel) (call_args : list Expr) (callee_name : string)
         (func_info : VariantFuncInfo),
    let r := _check_gvariant_format_param dm call_args callee_name
               func_info in
    fst r = true ->
    exists format_arg lit,
      nth_error call_args (format_param_index func_info) = Some format_arg /\
      asStringLiteral format_arg = Some lit /\
      let p := _check_format_string dm (initial_flags func_info)
                 (initial_state (c_str lit) call_args func_info) in
      fst p = true /\
      format_str (snd p) = ""%string /\
      (uses_va_list func_info = false -> args_begin (snd p) = []).
Proof.
  intros dm call_args callee_name func_info. cbv zeta. intros Hr.
  destruct (nth_error call_args (format_param_index func_info))
    as [format_arg |] eqn:Hn.
  2:{ unfold _check_gvariant_format_param in Hr. now rewrite Hn in Hr. }
  destruct (asStringLiteral format_arg) as [lit |] eqn:Hl.
  2:{ unfold _check_gvariant_format_param in Hr. now rewrite Hn, Hl in Hr. }
  exists format_arg, lit. split; [reflexivity |]. split; [exact Hl |].
  destruct (check_param_literal dm call_args callee_name func_info
              format_arg lit Hn Hl) as (_ & Hm & Hf & Hu & Hv & Ha).
  destruct Hm as [[n Hm] _]. simpl in Hm.
  destruct (fst (_check_format_string dm _ _)) eqn:Hp.
  2:{ rewrite (Hf eq_refl) in Hr. congruence. }
  split; [reflexivity |].
  destruct (Ascii.eqb_spec
              (cur (snd (_check_format_string dm (initial_flags func_info)
                           (initial_state (c_str lit) call_args
                              func_info)))) zero) as [Hc | Hc].
  2:{ rewrite (Hu eq_refl Hc) in Hr. discriminate Hr. }
  split.
  { rewrite Hm. apply c_str_no_nul. rewrite <- Hm. exact Hc. }
  intros Hva. rewrite (Ha eq_refl Hc Hva) in Hr.
  destruct (unconsumed_arguments_reports_each dm
              (args_begin (snd (_check_format_string dm
                 (initial_flags func_info)
                 (initial_state (c_str lit) call_args func_info))))
              true
              (snd (_check_format_string dm (initial_flags func_info)
                      (initial_state (c_str lit) call_args func_info))))
    as (H1 & _ & _).
  rewrite H1 in Hr.
  destruct (args_begin _); [reflexivity | discriminate Hr].
Qed.

Lemma accepted_call_uses_everything_witness :
  let hello := mkExpr char_ptr false None (Some "hello"%string) in
  let format := mkExpr const_char_ptr false None (Some "s"%string) in
  exists format_arg lit,
    nth_error [format; hello] (format_param_index g_variant_new_info) =
    Some format_arg /\
    asStringLiteral format_arg = Some lit /\
    let p := _check_format_string LP64 (initial_flags g_variant_new_info)
               (initial_state (c_str lit) [format; hello]
                  g_variant_new_info) in
    fst p = true /\
    format_str (snd p) = ""%string /\
    (uses_va_list g_variant_new_info = false -> args_begin (snd p) = []).
Proof.
  exact (accepted_call_uses_everything LP64
           [mkExpr const_char_ptr false None (Some "s"%string);
            mkExpr char_ptr false None (Some "hello"%string)]
           "g_variant_new" g_variant_new_info eq_refl).
Defined.

(** ** Pointers in the comparator and in the detector *)



(** X9: the detector of architecture-dependent types looks through any
    number of pointers, and at a typedef it looks at the name alone: behind
    however many pointers, a typedef named neither [glong] nor [gulong] is
    never flagged, whatever it abbreviates. *)
Theorem arch_detector_looks_through_pointers :
  forall (n : nat) (t : QualType),
    _type_is_arch_dependent (Nat.iter n getPointerType t) =
    _type_is_arch_dependent t /\
    (forall q name underlying,
        t = TypedefType q name underlying ->
        name <> "glong"%string -> name <> "gulong"%string ->
        _type_is_arch_dependent (Nat.iter n getPointerType t) = false).
Proof.
  intros n t.
  assert (H : _type_is_arch_dependent (Nat.iter n getPointerType t) =
              _type_is_arch_dependent t)
    by (induction n as [| n IH]; [reflexivity | exact IH]).
  split; [exact H |].
  intros q name underlying -> H1 H2. rewrite H. simpl.
  apply String.eqb_neq in H1, H2. now rewrite H1, H2.
Qed.

(** ** Convenience conversions *)

(** X10: after a [^], each of the convenience conversions is skipped by
    exactly its own length and stands for one argument of pointer type:
    whether that argument is accepted or not, the cursor is left on the
    character that follows the conversion. *)
Theorem convenience_conversion_skips_its_length :
  forall (dm : DataModel) (macro rest : string) (flags : Z)
         (args : list Expr) (ds : list Diagnostic) (cs : list Call),
    In macro convenience_macros ->
    (exists t,
        convenience_conversion (macro ++ rest) =
        Some (t, String.length macro) /\ isPointerType t = true) /\
    format_str
      (snd (_check_basic_format_string dm flags
              (mkState ("^" ++ macro ++ rest) args ds cs))) = rest.
Proof.
  intros dm macro rest flags args ds cs Hin. simpl in Hin.
  (* [strncmp] stops at the end of the conversion, before [rest] *)
  destruct rest as [| c rest];
    repeat (destruct Hin as [<- | Hin];
            [split;
             [eexists; split; reflexivity
             | unfold _check_basic_format_string, call; simpl;
               exact (proj1 (consume_frame dm _ _ _))] |]);
    contradiction.
Qed.

Lemma convenience_conversion_skips_its_length_witness :
  (exists t,
      convenience_conversion ("a&ay" ++ ")") = Some (t, 4%nat) /\
      isPointerType t = true) /\
  format_str
    (snd (_check_basic_format_string LP64 CHECK_FLAG_NONE
            (mkState ("^" ++ "a&ay" ++ ")") [] [] []))) = ")"%string.
Proof.
  exact (convenience_conversion_skips_its_length LP64 "a&ay" ")"
           CHECK_FLAG_NONE [] [] []
           ltac:(simpl; tauto)).
Defined.

(** ** Callees that take a [va_list] *)

Section ArgumentsUnread.

Variable dm : DataModel.

Ltac unfold_steps :=
  unfold call, calling, log_call, skip, set_format_str, emit_error, cur;
  simpl.

Ltac still_not_consuming :=
  first [ assumption
        | unfold not_consuming in *;
          rewrite ?has_flag_clear_consume, ?has_flag_lor by single_flag;
          match goal with
          | H : has_flag _ _ = false |- _ => rewrite ?H
          end;
          reflexivity ].

Ltac not_consumed :=
  rewrite ?consume_not_consuming by still_not_consuming;
  try reflexivity.

Lemma basic_type_unread (flags : Z) (a a0 : list Expr) :
  not_consuming flags -> unread (_check_basic_type_string dm) flags a a0.
Proof.
  intros Hf fmt ds cs. unfold _check_basic_type_string. unfold_steps.
  destruct (basic_expected_type dm (peek fmt)); not_consumed.
Qed.

Lemma basic_format_unread (flags : Z) (a a0 : list Expr) :
  not_consuming flags -> unread (_check_basic_format_string dm) flags a a0.
Proof.
  intros Hf fmt ds cs. unfold _check_basic_format_string.
  destruct (basic_format_case (cur (mkState fmt a ds cs))) eqn:E;
    unfold_steps; unfold cur in E; simpl in E; rewrite E;
    try (destruct (convenience_conversion _) as [[t n] |]);
    not_consumed; unfold_steps;
    apply basic_type_unread; still_not_consuming.
Qed.

Lemma while_members_unread (member : Parser) (a : list Expr) :
  (forall a0 fmt ds cs,
      member (mkState fmt a ds cs) =
      option_map (with_args a) (member (mkState fmt a0 ds cs))) ->
  forall n a0 fmt ds cs,
    while_members member n (mkState fmt a ds cs) =
    option_map (with_args a) (while_members member n (mkState fmt a0 ds cs)).
Proof.
  intros Hm. induction n as [| n IH]; intros a0 fmt ds cs; simpl;
    unfold cur; simpl;
    destruct (negb (Ascii.eqb (peek fmt) ")") && _); try reflexivity.
  rewrite (Hm a0).
  destruct (member (mkState fmt a0 ds cs)) as [[[] [f1 a1 d1 c1]] |];
    simpl; try reflexivity.
  apply IH.
Qed.

Lemma check_type_string_fuel_unread (fuel : nat) :
  forall (flags : Z) (a a0 : list Expr),
    not_consuming flags ->
    unread_fuel (check_type_string_fuel dm fuel) flags a a0.
Proof.
  induction fuel as [| fuel IH]; intros flags a a0 Hf fmt ds cs;
    [reflexivity |].
  cbn [check_type_string_fuel]. unfold_steps.
  destruct (type_case (peek fmt)).
  - not_consumed.
  - rewrite (IH _ a a0) by still_not_consuming.
    destruct (check_type_string_fuel dm fuel _ _) as [[[] [f1 a1 d1 c1]] |];
      simpl; not_consumed.
  - apply IH; still_not_consuming.
  - rewrite (while_members_unread _ a) with (a0 := a0)
      by (intros; unfold_steps; apply IH; still_not_consuming).
    destruct (while_members _ _ _) as [[[] [f1 a1 d1 c1]] |];
      simpl; try reflexivity.
    destruct (negb (Ascii.eqb (peek f1) ")")); reflexivity.
  - not_consumed.
  - destruct (Ascii.eqb _ "}"); [reflexivity |].
    rewrite (basic_type_unread flags a a0 Hf).
    destruct (_check_basic_type_string dm flags _) as [[] [f1 a1 d1 c1]];
      simpl; try reflexivity.
    destruct (Ascii.eqb (peek f1) "}"); [reflexivity |].
    rewrite (IH flags a a1 Hf).
    destruct (check_type_string_fuel dm fuel flags _)
      as [[[] [f2 a2 d2 c2]] |]; simpl; try reflexivity.
    destruct (Ascii.eqb (peek f2) zero); [reflexivity |].
    destruct (negb (Ascii.eqb (peek f2) "}")); reflexivity.
  - not_consumed.
  - rewrite (basic_type_unread flags a a0 Hf). reflexivity.
Qed.

Lemma check_format_string_fuel_unread (fuel : nat) :
  forall (flags : Z) (a a0 : list Expr),
    not_consuming flags ->
    unread_fuel (check_format_string_fuel dm fuel) flags a a0.
Proof.
  induction fuel as [| fuel IH]; intros flags a a0 Hf fmt ds cs;
    [reflexivity |].
  cbn [check_format_string_fuel].
  unfold call, calling, log_call, skip, set_format_str, cur;
    cbn [format_str args_begin diags calls].
  destruct (format_case (peek fmt)).
  - apply check_type_string_fuel_unread; still_not_consuming.
  - apply IH; still_not_consuming.
  - not_consumed.
  - rewrite (while_members_unread _ a) with (a0 := a0)
      by (intros; unfold_steps; apply IH; still_not_consuming).
    destruct (while_members _ _ _) as [[[] [f1 a1 d1 c1]] |];
      simpl; try reflexivity.
    destruct (negb (Ascii.eqb (peek f1) ")")); reflexivity.
  - destruct (Ascii.eqb _ "}"); [reflexivity |].
    rewrite (basic_format_unread flags a a0 Hf).
    destruct (_check_basic_format_string dm flags _) as [[] [f1 a1 d1 c1]];
      simpl; try reflexivity.
    destruct (Ascii.eqb (peek f1) "}"); [reflexivity |].
    rewrite (IH flags a a1 Hf).
    destruct (check_format_string_fuel dm fuel flags _)
      as [[[] [f2 a2 d2 c2]] |]; simpl; try reflexivity.
    destruct (Ascii.eqb (peek f2) zero); [reflexivity |].
    destruct (negb (Ascii.eqb (peek f2) "}")); reflexivity.
  - apply check_type_string_fuel_unread; still_not_consuming.
  - rewrite (basic_format_unread flags a a0 Hf). reflexivity.
  - apply check_type_string_fuel_unread; still_not_consuming.
Qed.

Lemma check_format_string_unread (flags : Z) (a a0 : list Expr) :
  not_consuming flags -> unread (_check_format_string dm) flags a a0.
Proof.
  intros Hf fmt ds cs. unfold _check_format_string, enough_fuel.
  cbn [format_str].
  rewrite (check_format_string_fuel_unread _ flags a a0 Hf).
  destruct (check_format_string_fuel dm _ flags (mkState fmt a0 ds cs));
    reflexivity.
Qed.

End ArgumentsUnread.

Lemma va_list_not_consuming (func_info : VariantFuncInfo) :
  uses_va_list func_info = true -> not_consuming (initial_flags func_info).
Proof.
  unfold initial_flags, not_consuming. intros ->.
  now destruct (args_in func_info).
Qed.

(** X11: for a callee that takes a [va_list], the check reads the format
    string and nothing else: two calls with the same format literal get the
    same verdict and the same diagnostics, whatever their other arguments
    are, and however many. *)
Theorem va_list_check_reads_only_the_format :
  forall (dm : DataModel) (callee_name : string)
         (func_info : VariantFuncInfo) (call_args1 call_args2 : list Expr)
         (format_arg1 format_arg2 : Expr) (lit : string),
    uses_va_list func_info = true ->
    nth_error call_args1 (format_param_index func_info) = Some format_arg1 ->
    nth_error call_args2 (format_param_index func_info) = Some format_arg2 ->
    asStringLiteral format_arg1 = Some lit ->
    asStringLiteral format_arg2 = Some lit ->
    let r1 := _check_gvariant_format_param dm call_args1 callee_name
                func_info in
    let r2 := _check_gvariant_format_param dm call_args2 callee_name
                func_info in
    fst r1 = fst r2 /\ diags (snd r1) = diags (snd r2) /\
    format_str (snd r1) = format_str (snd r2).
Proof.
  intros dm callee_name func_info call_args1 call_args2 format_arg1
         format_arg2 lit Hva Hn1 Hn2 Hl1 Hl2. cbv zeta.
  unfold _check_gvariant_format_param.
  rewrite Hn1, Hn2, Hl1, Hl2, Hva. unfold initial_state.
  rewrite (check_format_string_unread dm (initial_flags func_info)
             (skipn (first_vararg_param_index func_info) call_args1)
             (skipn (first_vararg_param_index func_info) call_args2)
             (va_list_not_consuming func_info Hva)).
  destruct (_check_format_string dm _ _) as [[] [f1 a1 d1 c1]];
    unfold with_args, cur; simpl; [| now auto].
  destruct (negb (Ascii.eqb (peek f1) zero)); simpl; now auto.
Qed.

Lemma va_list_check_reads_only_the_format_witness :
  let format := mkExpr const_char_ptr false None (Some "(si)"%string) in
  let ap := mkExpr (find_pointer_type_by_name LP64 "va_list") false None
              None in
  let zero := mkExpr IntTy true (Some 0) None in
  let info := mkFuncInfo "g_variant_new_va" 0 2 true true in
  let r1 := _check_gvariant_format_param LP64 [format; zero; ap]
              "g_variant_new_va" info in
  let r2 := _check_gvariant_format_param LP64 [format] "g_variant_new_va"
              info in
  fst r1 = fst r2 /\ diags (snd r1) = diags (snd r2) /\
  format_str (snd r1) = format_str (snd r2).
Proof.
  exact (va_list_check_reads_only_the_format LP64 "g_variant_new_va"
           (mkFuncInfo "g_variant_new_va" 0 2 true true)
           [mkExpr const_char_ptr false None (Some "(si)"%string);
            mkExpr IntTy true (Some 0) None;
            mkExpr (find_pointer_type_by_name LP64 "va_list") false None
              None]
           [mkExpr const_char_ptr false None (Some "(si)"%string)]
           (mkExpr const_char_ptr false None (Some "(si)"%string))
           (mkExpr const_char_ptr false None (Some "(si)"%string))
           "(si)" eq_refl eq_refl eq_refl eq_refl eq_refl).
Defined.

(** ** Brackets that are never closed *)

Lemma never_closed_forward (c : ascii) (st st' : CheckState) :
  never_closed c (format_str st) -> moved_forward st st' -> cur st' <> c.
Proof. intros Hn [[n Hf] _]. unfold cur. rewrite Hf. apply Hn. Qed.

Lemma moved_forward_calling (from : Fn) (flags : Z) (to : Fn) (flags' : Z)
  (st : CheckState) :
  moved_forward st (calling from flags to flags' st).
Proof. now apply moved_forward_refl. Qed.

Lemma unclosed_tuple_format (dm : DataModel) (flags : Z) (st : CheckState) :
  cur st = "("%char -> never_closed ")" (format_str st) ->
  fst (_check_format_string dm flags st) = false.
Proof.
  intros Hc Hn. pose proof (format_string_unfold dm flags st) as H.
  cbn [check_format_string_fuel call] in H. rewrite Hc in H.
  cbn [format_case] in H. cbv iota in H.
  destruct (while_members _ _ _) as [[[] st1] |] eqn:E; try discriminate.
  - apply (while_members_preserves (fun _ => moved_forward)) in E.
    + cbn [snd] in E.
      assert (Hne : cur st1 <> ")"%char).
      { apply (never_closed_forward _ st); [exact Hn |].
        eapply moved_forward_trans; [apply moved_forward_skip | exact E]. }
      apply Ascii.eqb_neq in Hne. rewrite Hne in H. cbn [negb] in H.
      now injection H as <-.
    + forward.
    + forward.
    + intros s r Hr. apply check_format_string_fuel_forward in Hr.
      eapply moved_forward_trans; [apply moved_forward_calling | exact Hr].
  - now injection H as <-.
Qed.

Lemma unclosed_tuple_type (dm : DataModel) (flags : Z) (st : CheckState) :
  cur st = "("%char -> never_closed ")" (format_str st) ->
  fst (_check_type_string dm flags st) = false.
Proof.
  intros Hc Hn. pose proof (type_string_unfold dm flags st) as H.
  cbn [check_type_string_fuel call] in H. rewrite Hc in H.
  cbn [type_case] in H. cbv iota in H.
  destruct (while_members _ _ _) as [[[] st1] |] eqn:E; try discriminate.
  - apply (while_members_preserves (fun _ => moved_forward)) in E.
    + cbn [snd] in E.
      assert (Hne : cur st1 <> ")"%char).
      { apply (never_closed_forward _ st); [exact Hn |].
        eapply moved_forward_trans; [apply moved_forward_skip | exact E]. }
      apply Ascii.eqb_neq in Hne. rewrite Hne in H. cbn [negb] in H.
      now injection H as <-.
    + forward.
    + forward.
    + intros s r Hr. apply check_type_string_fuel_forward in Hr.
      eapply moved_forward_trans; [apply moved_forward_calling | exact Hr].
  - now injection H as <-.
Qed.

Lemma unclosed_dict_entry (g : Grammar)
  (key parse : Z -> CheckState -> bool * CheckState) (self key_fn : Fn)
  (flags : Z) (st : CheckState) :
  (forall f s, moved_forward s (snd (key f s))) ->
  (forall f s, moved_forward s (snd (parse f s))) ->
  never_closed "}" (format_str st) ->
  fst (dict_entry g key parse self key_fn flags st) = false.
Proof.
  intros Hkey Hparse Hn. unfold dict_entry.
  destruct (Ascii.eqb (cur (skip 1 st)) "}"); [reflexivity |].
  pose proof (Hkey flags (calling self flags key_fn flags (skip 1 st)))
    as H1.
  destruct (key flags _) as [[] st1]; [| reflexivity]. simpl in H1.
  destruct (Ascii.eqb (cur st1) "}"); [reflexivity |].
  pose proof (Hparse flags (calling self flags self flags st1)) as H2.
  destruct (parse flags _) as [[] st2]; [| reflexivity]. simpl in H2.
  destruct (Ascii.eqb (cur st2) zero); [reflexivity |].
  assert (Hne : cur st2 <> "}"%char).
  { apply (never_closed_forward _ st); [exact Hn |].
    eapply moved_forward_trans; [apply moved_forward_skip |].
    eapply moved_forward_trans; [apply moved_forward_calling |].
    eapply moved_forward_trans; [exact H1 |].
    eapply moved_forward_trans; [apply moved_forward_calling | exact H2]. }
  apply Ascii.eqb_neq in Hne. now rewrite Hne.
Qed.

(** X12: a tuple or a dictionary entry that is never closed is never
    accepted.  If the cursor is on an opening bracket or brace and the
    matching closing character occurs nowhere in the format string from
    there on, both the format-string parser and the type-string parser
    return false, whatever the flags and the arguments. *)
Theorem unclosed_bracket_is_never_accepted :
  forall (dm : DataModel) (flags : Z) (st : CheckState)
         (opening closing : ascii),
    In (opening, closing) [("("%char, ")"%char); ("{"%char, "}"%char)] ->
    cur st = opening ->
    never_closed closing (format_str st) ->
    fst (_check_format_string dm flags st) = false /\
    fst (_check_type_string dm flags st) = false.
Proof.
  intros dm flags st opening closing Hin Hc Hn.
  destruct Hin as [E | [E | []]]; injection E as <- <-.
  - split; [now apply unclosed_tuple_format | now apply unclosed_tuple_type].
  - split.
    + rewrite check_format_string_dict by exact Hc.
      apply unclosed_dict_entry; [| | exact Hn]; intros f s.
      * apply basic_format_forward.
      * apply check_format_string_forward.
    + rewrite check_type_string_dict by exact Hc.
      apply unclosed_dict_entry; [| | exact Hn]; intros f s.
      * apply basic_type_forward.
      * apply check_type_string_forward.
Qed.

Lemma unclosed_bracket_is_never_accepted_witness :
  let st := mkState "(si" [] [] [] in
  fst (_check_format_string LP64 CHECK_FLAG_NONE st) = false /\
  fst (_check_type_string LP64 CHECK_FLAG_NONE st) = false.
Proof.
  exact (unclosed_bracket_is_never_accepted LP64 CHECK_FLAG_NONE
           (mkState "(si" [] [] []) "(" ")"
           (or_introl eq_refl) eq_refl
           ltac:(intros [| [| [| [| n]]]]; simpl; discriminate)).
Defined.

(** ** What the flags do to the consumer *)

Lemma has_flag_allow_maybe (flags flag : Z) :
  is_single_flag flag -> flag <> CHECK_FLAG_ALLOW_MAYBE ->
  has_flag (Z.lor flags CHECK_FLAG_ALLOW_MAYBE) flag = has_flag flags flag.
Proof.
  intros Hs Hne. rewrite has_flag_lor by single_flag.
  destruct Hs as [-> | [-> | [-> | [-> | [-> | ->]]]]];
    try apply orb_false_r.
  now elim Hne.
Qed.

Lemma compare_types_direction (flags1 flags2 : Z) :
  has_flag flags1 CHECK_FLAG_DIRECTION_OUT =
  has_flag flags2 CHECK_FLAG_DIRECTION_OUT ->
  forall expected actual,
    _compare_types actual expected flags1 =
    _compare_types actual expected flags2.
Proof.
  intros H. induction expected as [| q e IH | |]; intros actual; simpl;
    try reflexivity.
  destruct (hasSameType actual _); [reflexivity |].
  destruct actual; simpl; try reflexivity.
  rewrite H. apply IH.
Qed.

(** X13: allowing NULL only ever accepts more.  Whatever argument the
    consumer accepts under some flags, it accepts with allowMaybeNull added
    to them, and leaves the same state. *)
Theorem allowing_null_rejects_nothing_more :
  forall (dm : DataModel) (expected_type : QualType) (flags : Z)
         (st st' : CheckState),
    _consume_variadic_argument dm expected_type flags st = (true, st') ->
    _consume_variadic_argument dm expected_type
      (Z.lor flags CHECK_FLAG_ALLOW_MAYBE) st = (true, st').
Proof.
  intros dm expected_type flags st st' H.
  assert (Ht : flagged_expected_type dm expected_type
                 (Z.lor flags CHECK_FLAG_ALLOW_MAYBE) =
               flagged_expected_type dm expected_type flags).
  { unfold flagged_expected_type.
    now rewrite !has_flag_allow_maybe by (single_flag || discriminate). }
  assert (Ha : has_flag (Z.lor flags CHECK_FLAG_ALLOW_MAYBE)
                 CHECK_FLAG_ALLOW_MAYBE = true).
  { rewrite has_flag_lor by single_flag. apply orb_true_r. }
  unfold _consume_variadic_argument in *.
  rewrite has_flag_allow_maybe by (single_flag || discriminate).
  rewrite Ht, Ha.
  destruct (negb (has_flag flags CHECK_FLAG_CONSUME_ARGS)); [exact H |].
  destruct (args_begin st) as [| arg rest]; [discriminate H |].
  cbv zeta in *.
  rewrite (compare_types_direction (Z.lor flags CHECK_FLAG_ALLOW_MAYBE)
             flags)
    by (apply has_flag_allow_maybe; (single_flag || discriminate)).
  destruct (isNullPointerConstant arg && _ && _) in H; [discriminate H |].
  simpl negb at 1. rewrite andb_false_r. simpl. exact H.
Qed.

Lemma allowing_null_rejects_nothing_more_witness :
  let hello := mkExpr char_ptr false None None in
  let st := mkState "" [hello] [] [] in
  _consume_variadic_argument LP64 char_ptr
    (Z.lor CHECK_FLAG_CONSUME_ARGS CHECK_FLAG_ALLOW_MAYBE) st =
  (true, set_args_begin [] st).
Proof.
  exact (allowing_null_rejects_nothing_more LP64 char_ptr
           CHECK_FLAG_CONSUME_ARGS
           (mkState "" [mkExpr char_ptr false None None] [] [])
           (set_args_begin []
              (mkState "" [mkExpr char_ptr false None None] [] []))
           eq_refl).
Defined.

Lemma basic_type_forced (dm : DataModel) (flags : Z) (st : CheckState)
  (expected_type : QualType) :
  has_flag flags CHECK_FLAG_FORCE_GVARIANT = true ->
  basic_expected_type dm (cur st) = Some expected_type ->
  _check_basic_type_string dm flags st =
  _consume_variadic_argument dm (find_pointer_type_by_name dm "GVariant")
    flags
    (calling Fn_check_basic_type_string flags Fn_consume_variadic_argument
       flags (skip 1 st)).
Proof.
  intros Hforce Hc.
  unfold _check_basic_type_string, call. rewrite Hc.
  unfold _consume_variadic_argument, flagged_expected_type.
  now rewrite Hforce.
Qed.

Lemma basic_chars_are_type_default (c : ascii) :
  In c basic_chars -> type_case c = Type_default.
Proof.
  intros H. simpl in H.
  repeat (destruct H as [<- | H]; [reflexivity |]). contradiction.
Qed.

(** X14: after an [@], the type character is not compared with the
    argument.  A format string that starts with [@] and a basic type
    character checks one argument as a [GVariant *], whichever the
    character is: the parsers go down to the consumer with forceGVariant
    set, and the consumer is asked for a [GVariant *]. *)
Theorem at_sign_checks_a_gvariant :
  forall (dm : DataModel) (flags : Z) (st : CheckState)
         (expected_type : QualType),
    cur st = "@"%char ->
    basic_expected_type dm (cur (skip 1 st)) = Some expected_type ->
    let forced := Z.lor flags CHECK_FLAG_FORCE_GVARIANT in
    _check_format_string dm flags st =
    _consume_variadic_argument dm (find_pointer_type_by_name dm "GVariant")
      forced
      (calling Fn_check_basic_type_string forced
         Fn_consume_variadic_argument forced
         (skip 1
            (calling Fn_check_type_string forced Fn_check_basic_type_string
               forced
               (calling Fn_check_format_string flags Fn_check_type_string
                  forced (skip 1 st))))).
Proof.
  intros dm flags st expected_type Hc Hb. cbv zeta.
  pose proof (format_string_unfold dm flags st) as H.
  cbn [check_format_string_fuel call] in H. rewrite Hc in H.
  cbn [format_case] in H. cbv iota in H.
  rewrite check_type_string_returns in H.
  2:{ pose proof (skip_length 1 st). unfold calling, log_call.
      cbn [format_str]. lia. }
  injection H as <-.
  rewrite check_type_string_default
    by (apply basic_chars_are_type_default;
        apply (basic_expected_type_chars dm _ expected_type); exact Hb).
  apply (basic_type_forced dm _ _ expected_type); [| exact Hb].
  rewrite has_flag_lor by single_flag. apply orb_true_r.
Qed.

Lemma at_sign_checks_a_gvariant_witness :
  let flags := CHECK_FLAG_CONSUME_ARGS in
  let st := mkState "@i" [mkExpr GVariant_ptr false None None] [] [] in
  let forced := Z.lor flags CHECK_FLAG_FORCE_GVARIANT in
  _check_format_string LP64 flags st =
  _consume_variadic_argument LP64 (find_pointer_type_by_name LP64 "GVariant")
    forced
    (calling Fn_check_basic_type_string forced
       Fn_consume_variadic_argument forced
       (skip 1
          (calling Fn_check_type_string forced Fn_check_basic_type_string
             forced
             (calling Fn_check_format_string flags Fn_check_type_string
                forced (skip 1 st))))).
Proof.
  exact (at_sign_checks_a_gvariant LP64 CHECK_FLAG_CONSUME_ARGS
           (mkState "@i" [mkExpr GVariant_ptr false None None] [] [])
           (find_type_by_name LP64 "gint32") eq_refl eq_refl).
Defined.

(** ** Reverse inference *)

Lemma Qualifiers_eqb_eq (a b : Qualifiers) :
  Qualifiers_eqb a b = true -> a = b.
Proof.
  destruct a as [[] [] []], b as [[] [] []]; simpl; intros H;
    (reflexivity || discriminate H).
Qed.

Lemma BuiltinKind_eqb_eq (a b : BuiltinKind) :
  BuiltinKind_eqb a b = true -> a = b.
Proof. destruct a, b; simpl; intros H; (reflexivity || discriminate H). Qed.

Lemma QualType_eqb_eq (a : QualType) :
  forall b, QualType_eqb a b = true -> a = b.
Proof.
  induction a as [qa ka | qa pa IH | qa na ua IH | qa ta];
    intros [qb kb | qb pb | qb nb ub | qb tb]; cbn [QualType_eqb];
    try discriminate;
    intros H; apply andb_true_iff in H; destruct H as [H1 H2].
  - f_equal; [now apply Qualifiers_eqb_eq | now apply BuiltinKind_eqb_eq].
  - f_equal; [now apply Qualifiers_eqb_eq | now apply IH].
  - apply andb_true_iff in H1. destruct H1 as [H0 H1].
    f_equal; [now apply Qualifiers_eqb_eq | now apply String.eqb_eq
             | now apply IH].
  - f_equal; [now apply Qualifiers_eqb_eq | now apply String.eqb_eq].
Qed.

(** X15: reverse inference suggests [v] for a pointer to [GVariant *] and
    for nothing else: the type it is given is compared after one pointer
    has been taken off.  For a [GVariant *] itself, the type that the
    format [v] expects of an inbound argument, it has no suggestion. *)
Theorem variant_is_suggested_one_pointer_too_deep :
  forall dm : DataModel,
    let GVariant_pointer := find_pointer_type_by_name dm "GVariant" in
    (forall type : QualType,
        _gvariant_format_string_for_type dm type = Some "v"%string ->
        getPointeeType type = Some GVariant_pointer) /\
    _gvariant_format_string_for_type dm (getPointerType GVariant_pointer) =
    Some "v"%string /\
    _gvariant_format_string_for_type dm GVariant_pointer = None.
Proof.
  intros dm. cbv zeta. split; [| split; now destruct dm].
  intros type H. unfold _gvariant_format_string_for_type in H.
  destruct (is_kind _ Bool || _); [discriminate H |].
  destruct (is_kind _ UChar); [discriminate H |].
  destruct (is_kind _ LongDouble); [discriminate H |].
  destruct (isSignedIntegerType type).
  { destruct (_ =? 16); [discriminate H |].
    destruct (_ =? 32); [discriminate H |].
    destruct (_ =? 64); discriminate H. }
  destruct (isUnsignedIntegerType type).
  { destruct (_ =? 16); [discriminate H |].
    destruct (_ =? 32); [discriminate H |].
    destruct (_ =? 64); discriminate H. }
  destruct (isPointerType type); [| discriminate H].
  destruct (getPointeeType type) as [pointee_type |]; [| discriminate H].
  destruct (isCharType pointee_type && _); [discriminate H |].
  destruct (isCharType pointee_type); [discriminate H |].
  destruct (QualType_eqb pointee_type _) eqn:E.
  - f_equal. now apply QualType_eqb_eq.
  - destruct (isPointerType pointee_type); [| discriminate H].
    destruct (getPointeeType pointee_type) as [pointee2_type |];
      [| discriminate H].
    destruct (isCharType pointee2_type); discriminate H.
Qed.

(** ** Which diagnostics can come up *)

Lemma adds_nothing (P : Diagnostic -> bool) (st st' : CheckState) :
  diags st' = diags st -> adds P st st'.
Proof. intros H. exists []. now rewrite app_nil_r. Qed.

Lemma adds_one (P : Diagnostic -> bool) (d : Diagnostic) (st : CheckState) :
  P d = true -> adds P st (emit_error d st).
Proof. intros H. exists [d]. simpl. now rewrite H. Qed.

Lemma adds_trans (P : Diagnostic -> bool) (st1 st2 st3 : CheckState) :
  adds P st1 st2 -> adds P st2 st3 -> adds P st1 st3.
Proof.
  intros (n1 & H1 & P1) (n2 & H2 & P2). exists (n1 ++ n2)%list.
  rewrite H2, H1, app_assoc, forallb_app, P1, P2. now split.
Qed.

Lemma allow_maybe_passes (from : Fn) (flags : Z) (to : Fn) (flags' : Z) :
  passes from flags to flags' ->
  has_flag flags CHECK_FLAG_ALLOW_MAYBE = true ->
  has_flag flags' CHECK_FLAG_ALLOW_MAYBE = true.
Proof.
  intros [] H; try assumption;
    rewrite ?has_flag_clear_consume, ?has_flag_lor by single_flag;
    rewrite ?H; reflexivity.
Qed.

Lemma consume_allowing_null (dm : DataModel) (expected_type : QualType)
  (flags : Z) (st : CheckState) :
  has_flag flags CHECK_FLAG_ALLOW_MAYBE = true ->
  adds (fun d => negb (is_NullNotAllowed d)) st
    (snd (_consume_variadic_argument dm expected_type flags st)).
Proof.
  intros Ha. unfold _consume_variadic_argument. rewrite Ha.
  destruct (negb (has_flag flags CHECK_FLAG_CONSUME_ARGS));
    [now apply adds_nothing |].
  destruct (args_begin st) as [| arg rest]; [now apply adds_one |].
  cbv zeta. simpl negb at 1. rewrite andb_false_r. simpl.
  destruct (negb (isNullPointerConstant arg)); [| now apply adds_nothing].
  destruct (_type_is_arch_dependent _); [now apply adds_one |].
  destruct (negb (_compare_types _ _ _));
    [now apply adds_one | now apply adds_nothing].
Qed.

Lemma consume_structural (dm : DataModel) (expected_type : QualType)
  (flags : Z) (st : CheckState) :
  not_consuming flags ->
  adds is_structural st
    (snd (_consume_variadic_argument dm expected_type flags st)).
Proof.
  intros Hf. rewrite consume_not_consuming by exact Hf.
  now apply adds_nothing.
Qed.

Ltac adding :=
  first [ now trivial
        | now (intros; apply adds_nothing)
        | now (intros; eapply adds_trans; eassumption)
        | now (intros; apply adds_one;
               match goal with
               | H : is_structural ?d = true |- _ => now destruct d
               end)
        | exact allow_maybe_passes
        | exact not_consuming_passes
        | now (intros; apply consume_allowing_null)
        | now (intros; apply consume_structural) ].

Lemma check_format_string_allowing_null (dm : DataModel) (flags : Z)
  (st : CheckState) :
  has_flag flags CHECK_FLAG_ALLOW_MAYBE = true ->
  adds (fun d => negb (is_NullNotAllowed d)) st
    (snd (_check_format_string dm flags st)).
Proof.
  apply (check_format_string_preserves dm
           (fun flags => has_flag flags CHECK_FLAG_ALLOW_MAYBE = true)
           (fun _ => adds (fun d => negb (is_NullNotAllowed d))));
    adding.
Qed.

Lemma check_format_string_structural (dm : DataModel) (flags : Z)
  (st : CheckState) :
  not_consuming flags ->
  adds is_structural st (snd (_check_format_string dm flags st)).
Proof.
  apply (check_format_string_preserves dm not_consuming
           (fun _ => adds is_structural)); adding.
Qed.

Lemma check_type_string_structural (dm : DataModel) (flags : Z)
  (st : CheckState) :
  not_consuming flags ->
  adds is_structural st (snd (_check_type_string dm flags st)).
Proof.
  apply (check_type_string_preserves dm not_consuming
           (fun _ => adds is_structural)); adding.
Qed.

(** X16: run without consumeArguments, as for the element type of an
    array and for a callee that takes a [va_list], the parsers report
    nothing about an argument: every diagnostic they add is one on the
    structure of the format string. *)
Theorem no_argument_diagnostic_without_consuming :
  forall (dm : DataModel) (flags : Z) (st : CheckState),
    not_consuming flags ->
    adds is_structural st (snd (_check_format_string dm flags st)) /\
    adds is_structural st (snd (_check_type_string dm flags st)).
Proof.
  intros dm flags st H. split.
  - now apply check_format_string_structural.
  - now apply check_type_string_structural.
Qed.

Lemma no_argument_diagnostic_without_consuming_witness :
  let st := mkState "(i{s" [] [] [] in
  adds is_structural st
    (snd (_check_format_string LP64 CHECK_FLAG_FORCE_VALIST st)) /\
  adds is_structural st
    (snd (_check_type_string LP64 CHECK_FLAG_FORCE_VALIST st)).
Proof.
  exact (no_argument_diagnostic_without_consuming LP64
           CHECK_FLAG_FORCE_VALIST (mkState "(i{s" [] [] []) eq_refl).
Defined.

Lemma outbound_allows_null (func_info : VariantFuncInfo) :
  args_in func_info = false ->
  has_flag (initial_flags func_info) CHECK_FLAG_ALLOW_MAYBE = true.
Proof.
  unfold initial_flags. intros ->. now destruct (uses_va_list func_info).
Qed.

(** X17: a call of an outbound function is never told that NULL was
    passed.  The callees that read a GVariant start with allowMaybeNull
    set, the parsers hand it down to every consumer call, and so NULL is
    accepted for any argument: among the diagnostics of the check there is
    no NullNotAllowed. *)
Theorem outbound_call_never_reports_null :
  forall (dm : DataModel) (call_args : list Expr) (callee_name : string)
         (func_info : VariantFuncInfo) (expected : QualType),
    args_in func_info = false ->
    ~ In (NullNotAllowed expected)
         (diags (snd (_check_gvariant_format_param dm call_args callee_name
                        func_info))).
Proof.
  intros dm call_args callee_name func_info expected Hout.
  assert (Hno : forall l, forallb (fun d => negb (is_NullNotAllowed d)) l
                          = true ->
                          ~ In (NullNotAllowed expected) l).
  { intros l Hl Hin. rewrite forallb_forall in Hl.
    now specialize (Hl _ Hin). }
  apply Hno.
  destruct (nth_error call_args (format_param_index func_info))
    as [format_arg |] eqn:Hn.
  2:{ unfold _check_gvariant_format_param. now rewrite Hn. }
  destruct (asStringLiteral format_arg) as [lit |] eqn:Hl.
  2:{ unfold _check_gvariant_format_param. now rewrite Hn, Hl. }
  destruct (check_param_literal dm call_args callee_name func_info
              format_arg lit Hn Hl) as (_ & _ & Hf & Hu & Hv & Ha).
  destruct (check_format_string_allowing_null dm (initial_flags func_info)
              (initial_state (c_str lit) call_args func_info)
              (outbound_allows_null func_info Hout))
    as (new & Hnew & Hall).
  simpl in Hnew.
  destruct (fst (_check_format_string dm _ _)) eqn:Hp.
  2:{ rewrite (Hf eq_refl), Hnew. exact Hall. }
  destruct (Ascii.eqb_spec
              (cur (snd (_check_format_string dm (initial_flags func_info)
                           (initial_state (c_str lit) call_args
                              func_info)))) zero) as [Hc | Hc].
  2:{ rewrite (Hu eq_refl Hc). simpl. rewrite Hnew, forallb_app, Hall.
      reflexivity. }
  destruct (uses_va_list func_info) eqn:Hva.
  - rewrite (Hv eq_refl Hc eq_refl), Hnew. exact Hall.
  - rewrite (Ha eq_refl Hc eq_refl).
    destruct (unconsumed_arguments_reports_each dm
                (args_begin (snd (_check_format_string dm
                   (initial_flags func_info)
                   (initial_state (c_str lit) call_args func_info))))
                true
                (snd (_check_format_string dm (initial_flags func_info)
                        (initial_state (c_str lit) call_args func_info))))
      as (_ & H2 & _).
    rewrite H2, Hnew, forallb_app, Hall. simpl.
    apply forallb_forall. intros d Hd. apply in_map_iff in Hd.
    now destruct Hd as (arg & <- & _).
Qed.

Lemma outbound_call_never_reports_null_witness :
  let format := mkExpr const_char_ptr false None (Some "s"%string) in
  let value := mkExpr GVariant_ptr false None None in
  let null := mkExpr IntTy true (Some 0) None in
  ~ In (NullNotAllowed (getPointerType char_ptr))
       (diags (snd (_check_gvariant_format_param LP64 [value; format; null]
                      "g_variant_get"
                      (mkFuncInfo "g_variant_get" 1 2 false false)))).
Proof.
  exact (outbound_call_never_reports_null LP64
           [mkExpr GVariant_ptr false None None;
            mkExpr const_char_ptr false None (Some "s"%string);
            mkExpr IntTy true (Some 0) None]
           "g_variant_get" (mkFuncInfo "g_variant_get" 1 2 false false)
           (getPointerType char_ptr) eq_refl).
Defined.

(** ** An argument of the expected type *)

Lemma same_type_same_kind (a b : QualType) :
  hasSameType a b = true -> canonicalKind a = canonicalKind b.
Proof.
  unfold hasSameType, canonicalKind. intros H.
  now rewrite (QualType_eqb_eq _ _ H).
Qed.

Lemma same_type_not_promotable (expected_type : QualType) (arg : Expr) :
  hasSameType (getType arg) expected_type = true ->
  checked_actual_type expected_type arg = getType arg.
Proof.
  intros H. unfold checked_actual_type, is_promotable_literal.
  destruct (isIntegerConstantExpr arg) as [v |]; [| reflexivity].
  unfold isUnsignedIntegerType, hasSignedIntegerRepresentation,
    isSignedIntegerType.
  rewrite (same_type_same_kind _ _ H).
  destruct (canonicalKind expected_type) as [[] |];
    now rewrite ?andb_false_r.
Qed.

(** X18: an argument that is not a null constant and has the expected type
    is accepted unless its type is architecture-dependent; then it is
    refused for that, although the types are the same. *)
Theorem argument_of_the_expected_type :
  forall (dm : DataModel) (expected_type : QualType) (flags : Z)
         (st : CheckState) (arg : Expr) (rest : list Expr),
    has_flag flags CHECK_FLAG_CONSUME_ARGS = true ->
    args_begin st = arg :: rest ->
    isNullPointerConstant arg = false ->
    let expected' := flagged_expected_type dm expected_type flags in
    hasSameType (getType arg) expected' = true ->
    _consume_variadic_argument dm expected_type flags st =
    if _type_is_arch_dependent (getType arg)
    then (false,
          emit_error (ArchDependentMismatch expected' (getType arg)) st)
    else (true, set_args_begin rest st).
Proof.
  intros dm expected_type flags st arg rest Hc Hargs Hnull expected' Hsame.
  rewrite (consume_not_null dm expected_type flags st arg rest Hc Hargs
             Hnull).
  fold expected'. rewrite (same_type_not_promotable expected' arg Hsame).
  rewrite _compare_types_unfold, Hsame. reflexivity.
Qed.

Lemma argument_of_the_expected_type_witness :
  let st := mkState "" [mkExpr LongTy false None None] [] [] in
  _consume_variadic_argument LP64 LongTy CHECK_FLAG_CONSUME_ARGS st =
  (false, emit_error (ArchDependentMismatch LongTy LongTy) st).
Proof.
  exact (argument_of_the_expected_type LP64 LongTy CHECK_FLAG_CONSUME_ARGS
           (mkState "" [mkExpr LongTy false None None] [] [])
           (mkExpr LongTy false None None) []
           eq_refl eq_refl eq_refl eq_refl).
Defined.

(** ** Maybe types, from the call down *)

(** X19: NULL is accepted where the format string says maybe, and only
    there.  For each basic type character that stands for a pointer ([s],
    [o], [g], [?]), [g_variant_new] with that character as format string and
    a null-pointer constant as argument is refused with one NullNotAllowed
    for a pointer type; with an [m] before the character, the same call is
    accepted without a diagnostic. *)
Theorem maybe_type_accepts_null :
  forall (dm : DataModel) (c : ascii) (null : Expr),
    In c ["s"; "o"; "g"; "?"]%char ->
    isNullPointerConstant null = true ->
    let plain := check_one_argument dm (String c "") null in
    let maybe := check_one_argument dm (String "m" (String c "")) null in
    (fst maybe = true /\ diags (snd maybe) = []) /\
    fst plain = false /\
    exists expected,
      diags (snd plain) = [NullNotAllowed expected] /\
      isPointerType expected = true.
Proof.
  intros dm c null Hin Hnull. cbv zeta.
  unfold check_one_argument, _check_gvariant_format_param.
  simpl in Hin.
  destruct Hin as [<- | [<- | [<- | [<- | []]]]];
    cbn; rewrite Hnull; cbn;
    (split; [split; reflexivity |]);
    (split; [reflexivity |]);
    eexists; split; reflexivity.
Qed.

Lemma maybe_type_accepts_null_witness :
  let null := mkExpr IntTy true (Some 0) None in
  let plain := check_one_argument ILP32 "s" null in
  let maybe := check_one_argument ILP32 "ms" null in
  (fst maybe = true /\ diags (snd maybe) = []) /\
  fst plain = false /\
  exists expected,
    diags (snd plain) = [NullNotAllowed expected] /\
    isPointerType expected = true.
Proof.
  exact (maybe_type_accepts_null ILP32 "s" (mkExpr IntTy true (Some 0) None)
           (or_introl eq_refl) eq_refl).
Defined.
